(** * Reader: cursor navigation, bookmarks and highlights

    A shallow embedding of [src/components/reader.tsx], the single React
    component of the repository.  The component's hooks are a record
    [State]; what a handler does besides setting state (toasts, the
    console) is recorded in a trace; the one place where exceptions occur
    ([fetchChapters]) is written in a small state-and-exception monad. *)

From Stdlib Require Import ZArith List String Ascii Bool Lia Permutation.
From Stdlib Require Import DecimalString DecimalZ.
Import ListNotations.
Open Scope Z_scope.

(** ** JavaScript arrays, as far as the component uses them *)

Module JS.

(** [a.length] *)
Definition length {A : Type} (a : list A) : Z := Z.of_nat (List.length a).

(** [a[i]] for an integral number [i]: [undefined] ([None]) when [i] is
    negative or not below [a.length]. *)
Definition index {A : Type} (a : list A) (i : Z) : option A :=
  if i <? 0 then None else nth_error a (Z.to_nat i).

(** [a.findIndex(p)], scanning from position [i]. *)
Fixpoint findIndex_from {A : Type} (p : A -> bool) (i : Z) (a : list A) : Z :=
  match a with
  | [] => -1
  | x :: r => if p x then i else findIndex_from p (i + 1) r
  end.

Definition findIndex {A : Type} (p : A -> bool) (a : list A) : Z :=
  findIndex_from p 0 a.

(** [a.filter((x, index) => p(x, index))], scanning from position [i]. *)
Fixpoint filter_from {A : Type} (p : A -> Z -> bool) (i : Z) (a : list A)
  : list A :=
  match a with
  | [] => []
  | x :: r =>
      if p x i then x :: filter_from p (i + 1) r else filter_from p (i + 1) r
  end.

Definition filter {A : Type} (p : A -> Z -> bool) (a : list A) : list A :=
  filter_from p 0 a.

End JS.

(** ** Data model *)

(** Modelled from the spec: the interface [Verse] is elided in reader.tsx
    (its line 14 only says the interfaces remain the same); the spec gives
    a verse as a record with one text field. *)
Record Verse : Type := { text : string }.

(** Modelled from the spec: the interface [Chapter] is elided in
    reader.tsx; the spec gives a chapter as a name and an ordered sequence
    of verses. *)
Record Chapter : Type := { name : string; verses : list Verse }.

Module Bookmark.
(** Modelled from the spec: the interface [Bookmark] is elided in
    reader.tsx; the fields are those of the object literal that
    [toggleBookmark] builds. *)
Record t : Type := mk { chapter : Z; verse : Z }.
End Bookmark.

Module Highlight.
(** Modelled from the spec: the interface [Highlight] is elided in
    reader.tsx; the fields are those of the object literal that
    [addHighlight] builds. *)
Record t : Type := mk { chapter : Z; verse : Z; text : string }.
End Highlight.

(** The [useState] hooks of [Reader], lines 17-23. *)
Record State : Type := {
  chapters : list Chapter;
  currentChapter : Z;
  currentVerse : Z;
  fontSize : Z;
  bookmarks : list Bookmark.t;
  highlights : list Highlight.t;
  isLoading : bool
}.

(** The initial values of the hooks. *)
Definition initialState : State :=
  {| chapters := []; currentChapter := 0; currentVerse := 0; fontSize := 16;
     bookmarks := []; highlights := []; isLoading := true |}.

(** ** Effects *)

(** What [fetch] or [response.json()] rejects with. *)
Inductive Exn : Type := NetworkError | SyntaxError.

Inductive Effect : Type :=
| ConsoleError (msg : string) (e : Exn)
| ToastError (msg : string)
| ToastSuccess (msg : string).

Record World : Type := { state : State; trace : list Effect }.

Definition initialWorld : World := {| state := initialState; trace := [] |}.

Inductive Result (A : Type) : Type :=
| Ok (a : A)
| Throw (e : Exn).
Arguments Ok {A} a.
Arguments Throw {A} e.

Definition Eff (A : Type) : Type := World -> Result A * World.

Definition ret {A : Type} (a : A) : Eff A := fun w => (Ok a, w).

Definition bind {A B : Type} (c : Eff A) (k : A -> Eff B) : Eff B :=
  fun w =>
    match c w with
    | (Ok a, w') => k a w'
    | (Throw e, w') => (Throw e, w')
    end.

Notation "x <- c ;; k" := (bind c (fun x => k))
  (at level 61, c at next level, right associativity).
Notation "c ;; k" := (bind c (fun _ => k))
  (at level 61, right associativity).

(** [await p] for a promise that settles as [r]. *)
Definition await {A : Type} (r : Result A) : Eff A := fun w => (r, w).

(** [try { body } catch (error) { handler }] *)
Definition try_catch {A : Type} (body : Eff A) (handler : Exn -> Eff A) : Eff A :=
  fun w =>
    match body w with
    | (Ok a, w') => (Ok a, w')
    | (Throw e, w') => handler e w'
    end.

Definition modify (f : State -> State) : Eff unit :=
  fun w => (Ok tt, {| state := f (state w); trace := trace w |}).

Definition emit (e : Effect) : Eff unit :=
  fun w => (Ok tt, {| state := state w; trace := trace w ++ [e] |}).

(** The setters returned by [useState]. *)
Definition setChapters (d : list Chapter) : Eff unit :=
  modify (fun s =>
    {| chapters := d; currentChapter := currentChapter s;
       currentVerse := currentVerse s; fontSize := fontSize s;
       bookmarks := bookmarks s; highlights := highlights s;
       isLoading := isLoading s |}).

Definition setCurrentChapter (c : Z) : Eff unit :=
  modify (fun s =>
    {| chapters := chapters s; currentChapter := c;
       currentVerse := currentVerse s; fontSize := fontSize s;
       bookmarks := bookmarks s; highlights := highlights s;
       isLoading := isLoading s |}).

Definition setCurrentVerse (v : Z) : Eff unit :=
  modify (fun s =>
    {| chapters := chapters s; currentChapter := currentChapter s;
       currentVerse := v; fontSize := fontSize s;
       bookmarks := bookmarks s; highlights := highlights s;
       isLoading := isLoading s |}).

Definition setFontSize (f : Z) : Eff unit :=
  modify (fun s =>
    {| chapters := chapters s; currentChapter := currentChapter s;
       currentVerse := currentVerse s; fontSize := f;
       bookmarks := bookmarks s; highlights := highlights s;
       isLoading := isLoading s |}).

Definition setBookmarks (b : list Bookmark.t) : Eff unit :=
  modify (fun s =>
    {| chapters := chapters s; currentChapter := currentChapter s;
       currentVerse := currentVerse s; fontSize := fontSize s;
       bookmarks := b; highlights := highlights s;
       isLoading := isLoading s |}).

Definition setHighlights (h : list Highlight.t) : Eff unit :=
  modify (fun s =>
    {| chapters := chapters s; currentChapter := currentChapter s;
       currentVerse := currentVerse s; fontSize := fontSize s;
       bookmarks := bookmarks s; highlights := h;
       isLoading := isLoading s |}).

Definition setIsLoading (l : bool) : Eff unit :=
  modify (fun s =>
    {| chapters := chapters s; currentChapter := currentChapter s;
       currentVerse := currentVerse s; fontSize := fontSize s;
       bookmarks := bookmarks s; highlights := highlights s;
       isLoading := l |}).

(** ** The initial fetch, lines 29-40 *)

(** The response of [fetch]; [json] is how [response.json()] settles. *)
Record Response : Type := { json : Result (list Chapter) }.

(** [net] is how [fetch('https://bhagavadgitaapi.in/chapters')] settles. *)
Definition fetchChapters (net : Result Response) : Eff unit :=
  try_catch
    (response <- await net ;;
     data <- await (json response) ;;
     setChapters data ;;
     setIsLoading false)
    (fun error =>
     emit (ConsoleError "Error fetching chapters:"%string error) ;;
     setIsLoading false ;;
     emit (ToastError "Failed to load chapters. Please try again later."%string)).

(** The exception of a failed fetch: [fetch] itself rejects, or the body
    does not parse. *)
Definition fetch_failure (net : Result Response) : option Exn :=
  match net with
  | Throw e => Some e
  | Ok r => match json r with Throw e => Some e | Ok _ => None end
  end.

(** ** The handlers of one render *)

(** What [main] can show, lines 150-175. *)
Inductive View : Type :=
| LoadingView
| VerseView (chapterNumber : Z) (chapterName : string)
            (verseText : string) (px : Z)
| NoContentView.

Section Render.

(** The values of the hooks that the closures of this render capture. *)
Variable s : State.

(** [chapters[i]?.verses?.length ?? d]: [verses] being an array in the data
    model, the fallback [d] is taken exactly when [chapters[i]] is
    [undefined]. *)
Definition verses_length_or (i d : Z) : Z :=
  match JS.index (chapters s) i with
  | Some ch => JS.length (verses ch)
  | None => d
  end.

(** Lines 42-51. *)
Definition handleNextVerse : Eff unit :=
  if JS.length (chapters s) =? 0 then ret tt
  else if currentVerse s <? verses_length_or (currentChapter s) 0 - 1 then
    setCurrentVerse (currentVerse s + 1)
  else if currentChapter s <? JS.length (chapters s) - 1 then
    setCurrentChapter (currentChapter s + 1) ;;
    setCurrentVerse 0
  else ret tt.

(** Lines 53-62. *)
Definition handlePreviousVerse : Eff unit :=
  if JS.length (chapters s) =? 0 then ret tt
  else if 0 <? currentVerse s then
    setCurrentVerse (currentVerse s - 1)
  else if 0 <? currentChapter s then
    setCurrentChapter (currentChapter s - 1) ;;
    setCurrentVerse (verses_length_or (currentChapter s - 1) 1 - 1)
  else ret tt.

(** Lines 71-83. *)
Definition toggleBookmark : Eff unit :=
  let existingBookmarkIndex :=
    JS.findIndex
      (fun b => (Bookmark.chapter b =? currentChapter s)
                && (Bookmark.verse b =? currentVerse s))
      (bookmarks s) in
  if negb (existingBookmarkIndex =? -1) then
    setBookmarks
      (JS.filter (fun _ index => negb (index =? existingBookmarkIndex))
                 (bookmarks s)) ;;
    emit (ToastSuccess "Bookmark removed"%string)
  else
    setBookmarks
      (bookmarks s
         ++ [Bookmark.mk (currentChapter s) (currentVerse s)]) ;;
    emit (ToastSuccess "Bookmark added"%string).

(** Lines 85-88. *)
Definition addHighlight (text : string) : Eff unit :=
  setHighlights
    (highlights s
       ++ [Highlight.mk (currentChapter s) (currentVerse s) text]) ;;
  emit (ToastSuccess "Highlight added"%string).

(** The [onClick] of the button rendered for a bookmark, lines 121-124. *)
Definition jumpToBookmark (bookmark : Bookmark.t) : Eff unit :=
  setCurrentChapter (Bookmark.chapter bookmark) ;;
  setCurrentVerse (Bookmark.verse bookmark).

(** The slider's [onValueChange], line 196, called with [[value0]]. *)
Definition onFontSizeChange (value0 : Z) : Eff unit :=
  setFontSize value0.

(** Lines 90-91. *)
Definition currentChapterData : option Chapter :=
  JS.index (chapters s) (currentChapter s).

Definition currentVerseData : option Verse :=
  match currentChapterData with
  | Some ch => JS.index (verses ch) (currentVerse s)
  | None => None
  end.

(** Lines 150-175. *)
Definition render : View :=
  if isLoading s then LoadingView
  else if 0 <? JS.length (chapters s) then
    match currentChapterData, currentVerseData with
    | Some ch, Some v =>
        VerseView (currentChapter s + 1) (name ch) (text v) (fontSize s)
    | _, _ => NoContentView
    end
  else NoContentView.

End Render.

(** ** The component as a transition system *)

(** What the user can do.  [JumpToBookmark i] presses the button rendered
    for [bookmarks[i]]; there is no such button when [i] is out of range. *)
Inductive Action : Type :=
| NextVerse
| PreviousVerse
| ToggleBookmark
| AddHighlight (text : string)
| JumpToBookmark (i : nat)
| ChangeFontSize (px : Z).

Definition handler (a : Action) (s : State) : Eff unit :=
  match a with
  | NextVerse => handleNextVerse s
  | PreviousVerse => handlePreviousVerse s
  | ToggleBookmark => toggleBookmark s
  | AddHighlight t => addHighlight s t
  | JumpToBookmark i =>
      match nth_error (bookmarks s) i with
      | Some b => jumpToBookmark b
      | None => ret tt
      end
  | ChangeFontSize px => onFontSizeChange px
  end.

(** A handler runs on the world it was rendered from. *)
Definition dispatch (h : State -> Eff unit) (w : World) : Result unit * World :=
  h (state w) w.

Definition step (a : Action) (w : World) : World := snd (dispatch (handler a) w).

Inductive Event : Type :=
| Act (a : Action)
| Fetched (net : Result Response).

Definition react (e : Event) (w : World) : World :=
  match e with
  | Act a => step a w
  | Fetched net => snd (fetchChapters net w)
  end.

Definition run (es : list Event) (w : World) : World :=
  fold_left (fun w e => react e w) es w.

Definition cursor (w : World) : Z * Z :=
  (currentChapter (state w), currentVerse (state w)).

Definition advance : World -> World := step NextVerse.
Definition retreat : World -> World := step PreviousVerse.

(** [w] with the cursor at [(c, v)] and nothing else changed. *)
Definition moveTo (c v : Z) (w : World) : World :=
  {| state :=
       {| chapters := chapters (state w); currentChapter := c;
          currentVerse := v; fontSize := fontSize (state w);
          bookmarks := bookmarks (state w);
          highlights := highlights (state w);
          isLoading := isLoading (state w) |};
     trace := trace w |}.

(** The world once the fetch has delivered [chs]. *)
Definition loaded (chs : list Chapter) : World :=
  react (Fetched (Ok {| json := Ok chs |})) initialWorld.

(** ** Vocabulary of the properties *)

(** The last verse of a chapter, [verses[verses.length - 1]] read off the
    list: nothing when the chapter has no verse. *)
Definition lastVerse (ch : Chapter) : option Verse := hd_error (rev (verses ch)).

(** How many verses there are in all. *)
Definition total_verses (chs : list Chapter) : nat :=
  list_sum (map (fun ch => List.length (verses ch)) chs).

(** The position of the last verse of the last chapter. *)
Definition last_position (chs : list Chapter) : Z * Z :=
  (JS.length chs - 1,
   match JS.index chs (JS.length chs - 1) with
   | Some ch => JS.length (verses ch)
   | None => 0
   end - 1).

(** The chapters of the scenario of the specification. *)
Definition scenario : list Chapter :=
  [ {| name := "Ch1"; verses := [ {| text := "v1" |}; {| text := "v2" |} ] |};
    {| name := "Ch2"; verses := [ {| text := "v3" |} ] |} ]%string.

(** Calling [advance] (total verse count - 1) times from [w] reaches the
    last verse of the last chapter, and one further call moves nothing. *)
Definition traversal_reaches_end (w : World) : Prop :=
  let chs := chapters (state w) in
  let w' := Nat.iter (total_verses chs - 1) advance w in
  cursor w' = last_position chs /\ cursor (advance w') = cursor w'.

(** A chapter list with a chapter that has no verse. *)
Definition with_empty_chapter : list Chapter :=
  [ {| name := "Ch1"; verses := [ {| text := "v1" |} ] |};
    {| name := "Ch2"; verses := [] |};
    {| name := "Ch3"; verses := [ {| text := "v3" |} ] |} ]%string.

(** The verses before chapter [c], counted. *)
Definition chapter_offset (chs : list Chapter) (c : nat) : nat :=
  total_verses (firstn c chs).

(** The cursor of [w] is at verse [v] of chapter [c], which is [ch]. *)
Definition at_verse (w : World) (c v : nat) (ch : Chapter) : Prop :=
  cursor w = (Z.of_nat c, Z.of_nat v) /\
  nth_error (chapters (state w)) c = Some ch /\
  (v < List.length (verses ch))%nat.

(** Every chapter has a verse. *)
Definition no_empty_chapter (chs : list Chapter) : Prop :=
  Forall (fun ch => verses ch <> []) chs.

(** From verse 0 of a chapter other than the first, [retreat] lands on the
    last verse of the chapter before: that chapter [p] has a last verse, the
    cursor is at its position and this is the verse under the cursor. *)
Definition rolls_back_to_last_verse (w : World) : Prop :=
  exists p last,
    JS.index (chapters (state w)) (currentChapter (state w) - 1) = Some p /\
    lastVerse p = Some last /\
    cursor (retreat w)
    = (currentChapter (state w) - 1, JS.length (verses p) - 1) /\
    currentVerseData (state (retreat w)) = Some last.

(** ** The cursor invariant *)

(** [(c, v)] names a verse of [chs]: [0 <= c < chs.length] and
    [0 <= v < chs[c].verses.length]. *)
Definition position_ok (chs : list Chapter) (c v : Z) : bool :=
  (0 <=? c) && (c <? JS.length chs)
  && match JS.index chs c with
     | Some ch => (0 <=? v) && (v <? JS.length (verses ch))
     | None => false
     end.

Definition cursor_ok (w : World) : bool :=
  position_ok (chapters (state w))
              (currentChapter (state w)) (currentVerse (state w)).

(** Every stored bookmark names a verse. *)
Definition bookmarks_ok (w : World) : Prop :=
  Forall (fun b => position_ok (chapters (state w))
                               (Bookmark.chapter b) (Bookmark.verse b) = true)
         (bookmarks (state w)).

(** ** Bookmarks *)

(** The bookmark that [toggleBookmark] looks for and builds. *)
Definition here (w : World) : Bookmark.t :=
  Bookmark.mk (currentChapter (state w)) (currentVerse (state w)).

(** The test that [toggleBookmark] hands to [findIndex]. *)
Definition is_at (c v : Z) (b : Bookmark.t) : bool :=
  (Bookmark.chapter b =? c) && (Bookmark.verse b =? v).

(** A list without its first element that satisfies [p]. *)
Fixpoint remove_first {A : Type} (p : A -> bool) (l : list A) : list A :=
  match l with
  | [] => []
  | x :: r => if p x then r else x :: remove_first p r
  end.

Definition toggle : World -> World := step ToggleBookmark.

(** Verses (0,0) and (0,1) of the scenario bookmarked in this order, the
    cursor back at (0,0). *)
Definition two_bookmarks : World :=
  run [Fetched (Ok {| json := Ok scenario |});
       Act ToggleBookmark; Act NextVerse; Act ToggleBookmark;
       Act PreviousVerse]
      initialWorld.

(** ** The rest of the component *)

(** The [disabled] attribute of the Previous button, line 180. *)
Definition previousDisabled (s : State) : bool :=
  (currentChapter s =? 0) && (currentVerse s =? 0).

(** The [disabled] attribute of the Next button, line 184. *)
Definition nextDisabled (s : State) : bool :=
  (currentChapter s =? JS.length (chapters s) - 1)
  && (currentVerse s =? verses_length_or s (currentChapter s) 0 - 1).

(** The bounds that the font size slider is given, lines 192-193. *)
Definition sliderMin : Z := 12.
Definition sliderMax : Z := 24.

(** The whole text in reading order. *)
Definition all_verses (chs : list Chapter) : list Verse := flat_map verses chs.

(** How many verses come before the cursor in reading order. *)
Definition linear_position (w : World) : nat :=
  (chapter_offset (chapters (state w)) (Z.to_nat (currentChapter (state w)))
   + Z.to_nat (currentVerse (state w)))%nat.

(** What the user does, as events. *)
Definition user (acts : list Action) : list Event := map Act acts.

Definition is_fetched (e : Event) : bool :=
  match e with Fetched _ => true | Act _ => false end.

(** The texts handed to [addHighlight], in order. *)
Definition captured_texts (es : list Event) : list string :=
  flat_map (fun e => match e with Act (AddHighlight t) => [t] | _ => [] end) es.

(** The actions that show a toast. *)
Definition shows_toast (a : Action) : bool :=
  match a with ToggleBookmark | AddHighlight _ => true | _ => false end.

Definition is_toggle (a : Action) : bool :=
  match a with ToggleBookmark => true | _ => false end.

(** What holds of the world as long as no chapters have arrived: the cursor
    is at (0,0) and so is every bookmark. *)
Definition preload (w : World) : Prop :=
  chapters (state w) = [] /\
  cursor w = (0, 0) /\
  Forall (fun b => b = Bookmark.mk 0 0) (bookmarks (state w)).

(** The chapter list has chapters, each with a verse, and the cursor and the
    bookmarks name verses. *)
Definition in_bounds (w : World) : Prop :=
  chapters (state w) <> [] /\
  no_empty_chapter (chapters (state w)) /\
  cursor_ok w = true /\
  bookmarks_ok w.

(** ** The bookmark tab *)

(** [String(n)] for an integral number [n]: its decimal digits, after a
    minus sign when [n] is negative. *)
Definition numberToString (n : Z) : string :=
  NilEmpty.string_of_int (Z.to_int n).

(** The text of the button rendered for a bookmark, line 126. *)
Definition bookmarkLabel (b : Bookmark.t) : string :=
  ("Chapter " ++ numberToString (Bookmark.chapter b + 1)
   ++ ", Verse " ++ numberToString (Bookmark.verse b + 1))%string.

(** The bookmark tab, lines 117-128: one button per bookmark, in the order
    of the list, with its text and what a click does. *)
Definition bookmarkButtons (s : State) : list (string * Eff unit) :=
  map (fun bookmark => (bookmarkLabel bookmark, jumpToBookmark bookmark))
      (bookmarks s).

(** No comma in a string. *)
Fixpoint comma_free (s : string) : bool :=
  match s with
  | EmptyString => true
  | String c r => negb (Ascii.eqb c ",") && comma_free r
  end.

(** The actions that are navigation. *)
Definition is_navigation (a : Action) : bool :=
  match a with
  | NextVerse | PreviousVerse | JumpToBookmark _ => true
  | _ => false
  end.

(** * Properties *)

(** ** Arrays *)

Lemma length_nonneg {A : Type} (a : list A) : 0 <= JS.length a.
Proof. unfold JS.length. lia. Qed.

Lemma length_zero_iff {A : Type} (a : list A) : JS.length a = 0 <-> a = [].
Proof.
  unfold JS.length. destruct a as [|x r]; simpl; split; intro H;
    try reflexivity; try discriminate; lia.
Qed.

Lemma index_of_nat {A : Type} (a : list A) (i : nat) :
  JS.index a (Z.of_nat i) = nth_error a i.
Proof.
  unfold JS.index. destruct (Z.ltb_spec (Z.of_nat i) 0) as [H|H]; [lia|].
  now rewrite Nat2Z.id.
Qed.

Lemma index_Some {A : Type} (a : list A) (i : Z) (x : A) :
  JS.index a i = Some x ->
  0 <= i < JS.length a /\ nth_error a (Z.to_nat i) = Some x.
Proof.
  unfold JS.index, JS.length. destruct (Z.ltb_spec i 0) as [H|H]; [discriminate|].
  intro E. split; [|exact E].
  assert (Z.to_nat i < List.length a)%nat by (apply nth_error_Some; congruence).
  lia.
Qed.

Lemma index_in_range {A : Type} (a : list A) (i : Z) :
  0 <= i < JS.length a -> exists x, JS.index a i = Some x.
Proof.
  unfold JS.index, JS.length. intros [H0 H1].
  destruct (Z.ltb_spec i 0) as [H|H]; [lia|].
  destruct (nth_error a (Z.to_nat i)) as [x|] eqn:E; [now exists x|].
  apply nth_error_None in E. lia.
Qed.

(** ** The handlers as equations on worlds *)

Lemma advance_eq (w : World) :
  chapters (state w) <> [] ->
  advance w =
    if currentVerse (state w)
         <? verses_length_or (state w) (currentChapter (state w)) 0 - 1
    then moveTo (currentChapter (state w)) (currentVerse (state w) + 1) w
    else if currentChapter (state w) <? JS.length (chapters (state w)) - 1
    then moveTo (currentChapter (state w) + 1) 0 w
    else w.
Proof.
  intro Hne. unfold advance, step, dispatch, handler, handleNextVerse.
  destruct (Z.eqb_spec (JS.length (chapters (state w))) 0) as [E|_].
  - apply length_zero_iff in E. contradiction.
  - destruct (_ <? _); [reflexivity|]. destruct (_ <? _); reflexivity.
Qed.

Lemma retreat_eq (w : World) :
  chapters (state w) <> [] ->
  retreat w =
    if 0 <? currentVerse (state w)
    then moveTo (currentChapter (state w)) (currentVerse (state w) - 1) w
    else if 0 <? currentChapter (state w)
    then moveTo (currentChapter (state w) - 1)
                (verses_length_or (state w) (currentChapter (state w) - 1) 1 - 1)
                w
    else w.
Proof.
  intro Hne. unfold retreat, step, dispatch, handler, handlePreviousVerse.
  destruct (Z.eqb_spec (JS.length (chapters (state w))) 0) as [E|_].
  - apply length_zero_iff in E. contradiction.
  - destruct (_ <? _); [reflexivity|]. destruct (_ <? _); reflexivity.
Qed.

Lemma step_chapters (a : Action) (w : World) :
  chapters (state (step a w)) = chapters (state w).
Proof.
  unfold step, dispatch. destruct a; simpl.
  - unfold handleNextVerse. repeat (destruct (_ : bool); try reflexivity).
  - unfold handlePreviousVerse. repeat (destruct (_ : bool); try reflexivity).
  - unfold toggleBookmark. destruct (negb _); reflexivity.
  - reflexivity.
  - destruct (nth_error _ _); reflexivity.
  - reflexivity.
Qed.

Lemma index_last {A : Type} (a : list A) :
  JS.index a (JS.length a - 1) = hd_error (rev a).
Proof.
  destruct a as [|x r] using rev_ind; [reflexivity|].
  unfold JS.length. rewrite rev_app_distr, length_app. simpl.
  replace (Z.of_nat (List.length r + 1) - 1) with (Z.of_nat (List.length r)) by lia.
  rewrite index_of_nat, nth_error_app2 by lia.
  now rewrite Nat.sub_diag.
Qed.

(** ** Cursor navigation *)

(** C1: on a non-empty chapter list, with the cursor in a chapter [ch]:
    [advance] moves to the next verse of the chapter when there is one; from
    the last verse of a chapter that is not the last it moves to verse 0 of
    the next chapter; from the last verse of the last chapter it changes
    nothing. *)
Theorem advance_moves_cursor (w : World) (ch : Chapter) :
  chapters (state w) <> [] ->
  currentChapterData (state w) = Some ch ->
  let c := currentChapter (state w) in
  let v := currentVerse (state w) in
  let n := JS.length (chapters (state w)) in
  let m := JS.length (verses ch) in
  (v < m - 1 -> cursor (advance w) = (c, v + 1)) /\
  (v = m - 1 -> c < n - 1 -> cursor (advance w) = (c + 1, 0)) /\
  (v = m - 1 -> c = n - 1 -> advance w = w).
Proof.
  intros Hne Hch c v n m. rewrite (advance_eq w Hne).
  unfold verses_length_or. unfold currentChapterData in Hch. rewrite Hch.
  fold c v n m.
  destruct (Z.ltb_spec v (m - 1)) as [Hv|Hv];
    destruct (Z.ltb_spec c (n - 1)) as [Hc|Hc];
    repeat split; intros; try lia; reflexivity.
Qed.

Lemma advance_moves_cursor_witness :
  cursor (advance (loaded scenario)) = (0, 1) /\
  cursor (advance (moveTo 0 1 (loaded scenario))) = (1, 0) /\
  advance (moveTo 1 0 (loaded scenario)) = moveTo 1 0 (loaded scenario).
Proof.
  split; [|split].
  - refine (proj1 (advance_moves_cursor (loaded scenario) _ _ eq_refl) _);
      [discriminate | vm_compute; reflexivity].
  - refine (proj1 (proj2 (advance_moves_cursor (moveTo 0 1 (loaded scenario))
                            _ _ eq_refl)) _ _);
      [discriminate | reflexivity | vm_compute; reflexivity].
  - refine (proj2 (proj2 (advance_moves_cursor (moveTo 1 0 (loaded scenario))
                            _ _ eq_refl)) _ _);
      [discriminate | reflexivity | reflexivity].
Defined.

(** C2 as stated fails when the chapter before has no verse: two calls of
    [advance] from (0,0) put the cursor on verse 0 of the third chapter,
    and [retreat] from there stops at (1,-1), which names no verse, so the
    reader shows the no-content message instead of a last verse. *)
Lemma retreat_moves_cursor_counterexample :
  let w := Nat.iter 2 advance (loaded with_empty_chapter) in
  chapters (state w) <> [] /\
  cursor w = (2, 0) /\
  cursor (retreat w) = (1, -1) /\
  currentVerseData (state (retreat w)) = None /\
  render (state (retreat w)) = NoContentView /\
  ~ rolls_back_to_last_verse w.
Proof.
  simpl. split; [discriminate|]. repeat split.
  intros (p & last & Hp & Hlast & _). vm_compute in Hp.
  injection Hp as <-. discriminate.
Qed.

(** C2, amended: on a non-empty chapter list, [retreat] moves to the
    previous verse when the cursor is not at verse 0; from verse 0 of a
    chapter other than the first, when the chapter before has a verse, it
    moves to the last verse of that chapter; at verse 0 of chapter 0 it
    changes nothing, however often it is called. *)
Theorem retreat_moves_cursor (w : World) :
  chapters (state w) <> [] ->
  let c := currentChapter (state w) in
  let v := currentVerse (state w) in
  (0 < v -> cursor (retreat w) = (c, v - 1)) /\
  (v = 0 -> 0 < c ->
   forall p, JS.index (chapters (state w)) (c - 1) = Some p ->
     verses p <> [] ->
     rolls_back_to_last_verse w) /\
  (c = 0 -> v = 0 -> forall k : nat, Nat.iter k retreat w = w).
Proof.
  intros Hne c v. split; [|split].
  - intro Hv. rewrite (retreat_eq w Hne). fold c v.
    destruct (Z.ltb_spec 0 v); [reflexivity | lia].
  - intros Hv Hc p Hp Hverses.
    assert (Hlast : exists last, lastVerse p = Some last).
    { unfold lastVerse. destruct (rev (verses p)) as [|x r] eqn:E;
        [|now exists x].
      apply (f_equal (@rev Verse)) in E. rewrite rev_involutive in E.
      contradiction. }
    destruct Hlast as [last Hlast].
    exists p, last. split; [exact Hp|]. split; [exact Hlast|].
    rewrite (retreat_eq w Hne). fold c v.
    destruct (Z.ltb_spec 0 v); [lia|].
    destruct (Z.ltb_spec 0 c); [|lia].
    unfold verses_length_or. rewrite Hp. split; [reflexivity|].
    unfold currentVerseData, currentChapterData. simpl. rewrite Hp.
    rewrite <- Hlast. apply index_last.
  - intros Hc Hv k.
    assert (E : retreat w = w).
    { rewrite (retreat_eq w Hne). fold c v.
      destruct (Z.ltb_spec 0 v); [lia|].
      destruct (Z.ltb_spec 0 c); [lia | reflexivity]. }
    induction k as [|k IH]; [reflexivity|].
    simpl. now rewrite IH.
Qed.

Lemma retreat_moves_cursor_witness :
  cursor (retreat (moveTo 0 1 (loaded scenario))) = (0, 0) /\
  rolls_back_to_last_verse (moveTo 1 0 (loaded scenario)) /\
  Nat.iter 5 retreat (loaded scenario) = loaded scenario.
Proof.
  split; [|split].
  - refine (proj1 (retreat_moves_cursor (moveTo 0 1 (loaded scenario)) _) _);
      [discriminate | reflexivity].
  - refine (proj1 (proj2 (retreat_moves_cursor (moveTo 1 0 (loaded scenario)) _))
              eq_refl _ _ eq_refl _);
      [discriminate | reflexivity | discriminate].
  - refine (proj2 (proj2 (retreat_moves_cursor (loaded scenario) _))
              eq_refl eq_refl 5%nat).
    discriminate.
Defined.

(** The roll-back of the scenario, spelled out: from (1,0) [retreat] lands
    on (0,1), the verse v2. *)
Example retreat_rolls_back_to_v2 :
  cursor (retreat (moveTo 1 0 (loaded scenario))) = (0, 1) /\
  currentVerseData (state (retreat (moveTo 1 0 (loaded scenario))))
  = Some {| text := "v2" |}.
Proof. split; reflexivity. Qed.

(** C7: while the chapter list is empty both navigation handlers return
    normally and leave the world (state and trace) as it was. *)
Theorem navigation_noop_when_empty (w : World) :
  chapters (state w) = [] ->
  dispatch handleNextVerse w = (Ok tt, w) /\
  dispatch handlePreviousVerse w = (Ok tt, w) /\
  advance w = w /\ retreat w = w.
Proof.
  intro E. unfold advance, retreat, step, dispatch, handler,
    handleNextVerse, handlePreviousVerse.
  rewrite E. simpl. repeat split.
Qed.

Lemma navigation_noop_when_empty_witness :
  dispatch handleNextVerse initialWorld = (Ok tt, initialWorld) /\
  dispatch handlePreviousVerse initialWorld = (Ok tt, initialWorld) /\
  advance initialWorld = initialWorld /\ retreat initialWorld = initialWorld.
Proof. apply (navigation_noop_when_empty initialWorld). reflexivity. Defined.

(** ** Walking through all verses *)

Lemma offset_S (chs : list Chapter) (c : nat) (ch : Chapter) :
  nth_error chs c = Some ch ->
  chapter_offset chs (S c)
  = (chapter_offset chs c + List.length (verses ch))%nat.
Proof.
  unfold chapter_offset, total_verses. revert c.
  induction chs as [|x r IH]; intros [|c] H; simpl in *; try discriminate.
  - injection H as ->. lia.
  - specialize (IH c H). simpl in IH. lia.
Qed.

Lemma offset_le_total (chs : list Chapter) (c : nat) :
  (chapter_offset chs c <= total_verses chs)%nat.
Proof.
  unfold chapter_offset, total_verses. revert c.
  induction chs as [|x r IH]; intros [|c]; simpl; try lia.
  specialize (IH c). lia.
Qed.

Lemma offset_all (chs : list Chapter) :
  chapter_offset chs (List.length chs) = total_verses chs.
Proof. unfold chapter_offset. now rewrite firstn_all. Qed.

Lemma nth_error_nonempty (chs : list Chapter) (c : nat) (ch : Chapter) :
  no_empty_chapter chs -> nth_error chs c = Some ch ->
  (0 < List.length (verses ch))%nat.
Proof.
  intros Hall H. apply nth_error_In in H.
  unfold no_empty_chapter in Hall. rewrite Forall_forall in Hall.
  specialize (Hall _ H). destruct (verses ch); [contradiction | simpl; lia].
Qed.

Lemma cursor_moveTo (c v : Z) (w : World) : cursor (moveTo c v w) = (c, v).
Proof. reflexivity. Qed.

(** One call of [advance] at a verse: either this is the very last verse and
    nothing moves, or the cursor is at the verse that follows in reading
    order. *)
Lemma advance_progress (w : World) (c v : nat) (ch : Chapter) :
  no_empty_chapter (chapters (state w)) ->
  at_verse w c v ch ->
  let chs := chapters (state w) in
  ((chapter_offset chs c + v = total_verses chs - 1)%nat /\
   advance w = w /\ cursor w = last_position chs)
  \/
  ((chapter_offset chs c + v < total_verses chs - 1)%nat /\
   exists c' v' ch',
     at_verse (advance w) c' v' ch' /\
     (chapter_offset chs c' + v' = S (chapter_offset chs c + v))%nat).
Proof.
  intros Hall (Hcur & Hch & Hv) chs.
  assert (Hne : chapters (state w) <> []).
  { intro E. rewrite E in Hch. destruct c; discriminate. }
  assert (Hc : (c < List.length chs)%nat)
    by (unfold chs; apply nth_error_Some; congruence).
  injection Hcur as Ec Ev.
  pose proof (offset_S _ _ _ Hch) as HS. fold chs in HS.
  rewrite (advance_eq w Hne). unfold verses_length_or.
  rewrite Ec, Ev, index_of_nat, Hch. fold chs. unfold JS.length.
  destruct (Z.ltb_spec (Z.of_nat v) (Z.of_nat (List.length (verses ch)) - 1))
    as [Hlt|Hge].
  - (* a later verse of the same chapter *)
    right. pose proof (offset_le_total chs (S c)). split; [lia|].
    exists c, (S v), ch. split; [|lia].
    unfold at_verse. rewrite cursor_moveTo. simpl.
    repeat split; [f_equal; lia | exact Hch | lia].
  - destruct (Z.ltb_spec (Z.of_nat c) (Z.of_nat (List.length chs) - 1))
      as [Hclt|Hcge].
    + (* first verse of the next chapter *)
      right.
      destruct (nth_error chs (S c)) as [ch'|] eqn:Hn;
        [|apply nth_error_None in Hn; lia].
      pose proof (nth_error_nonempty _ _ _ Hall Hn) as Hpos.
      pose proof (offset_S _ _ _ Hn) as HS'.
      pose proof (offset_le_total chs (S (S c))).
      split; [lia|].
      exists (S c), 0%nat, ch'. split; [|lia].
      unfold at_verse. rewrite cursor_moveTo. simpl.
      repeat split; [f_equal; lia | exact Hn | exact Hpos].
    + (* the last verse of the last chapter *)
      left. assert (El : S c = List.length chs) by lia.
      pose proof (offset_all chs) as Hall'. rewrite <- El in Hall'.
      split; [lia|]. split; [reflexivity|].
      unfold cursor, last_position. rewrite Ec, Ev. unfold JS.length.
      replace (Z.of_nat (List.length chs) - 1) with (Z.of_nat c) by lia.
      unfold chs. rewrite index_of_nat, Hch. f_equal. unfold JS.length. lia.
Qed.

Lemma iter_fixed {A : Type} (f : A -> A) (x : A) (k : nat) :
  f x = x -> Nat.iter k f x = x.
Proof. intro E. induction k as [|k IH]; simpl; [reflexivity | now rewrite IH]. Qed.

Lemma iter_shift {A : Type} (f : A -> A) (x : A) (k : nat) :
  Nat.iter (S k) f x = Nat.iter k f (f x).
Proof. induction k as [|k IH]; [reflexivity|]. simpl in *. now rewrite IH. Qed.

(** From a verse that has [d] verses after it, [d] calls reach the end. *)
Lemma advance_iter (d : nat) : forall (w : World) (c v : nat) (ch : Chapter),
  no_empty_chapter (chapters (state w)) ->
  at_verse w c v ch ->
  (chapter_offset (chapters (state w)) c + v + d
   = total_verses (chapters (state w)) - 1)%nat ->
  cursor (Nat.iter d advance w) = last_position (chapters (state w)) /\
  advance (Nat.iter d advance w) = Nat.iter d advance w.
Proof.
  induction d as [|d IH]; intros w c v ch Hall Hat Hd.
  - destruct (advance_progress _ _ _ _ Hall Hat) as [(_ & E & L)|(Hlt & _)];
      [simpl; now split | lia].
  - destruct (advance_progress _ _ _ _ Hall Hat) as [(He & _)|(_ & c' & v' & ch' & Hat' & Hs)];
      [lia|].
    rewrite iter_shift.
    assert (Ech : chapters (state (advance w)) = chapters (state w))
      by apply step_chapters.
    rewrite <- Ech. apply (IH (advance w) c' v' ch').
    + now rewrite Ech.
    + exact Hat'.
    + rewrite Ech. lia.
Qed.

(** C3, amended: on a non-empty chapter list in which every chapter has a
    verse, (total verse count - 1) calls of [advance] from (0,0) reach the
    last verse of the last chapter and a further call moves nothing; so
    any number of calls from (total verse count - 1) on ends there. *)
Theorem advance_reaches_last_verse (w : World) :
  chapters (state w) <> [] ->
  no_empty_chapter (chapters (state w)) ->
  cursor w = (0, 0) ->
  traversal_reaches_end w /\
  forall j : nat,
    cursor (Nat.iter (total_verses (chapters (state w)) - 1 + j) advance w)
    = last_position (chapters (state w)).
Proof.
  intros Hne Hall Hcur.
  destruct (chapters (state w)) as [|ch0 r] eqn:Echs; [contradiction|].
  assert (Hat : at_verse w 0 0 ch0).
  { unfold at_verse. rewrite Echs. repeat split; [exact Hcur|].
    apply (nth_error_nonempty (ch0 :: r) 0 ch0 Hall). reflexivity. }
  rewrite <- Echs in *.
  destruct (advance_iter (total_verses (chapters (state w)) - 1) _ _ _ _ Hall Hat)
    as [Hend Hfix]; [reflexivity|].
  split.
  - unfold traversal_reaches_end. split; [exact Hend | now rewrite Hfix].
  - intro j. rewrite Nat.add_comm, Nat.iter_add, iter_fixed; assumption.
Qed.

Lemma advance_reaches_last_verse_witness :
  cursor (Nat.iter 3 advance (loaded scenario)) = (1, 0) /\
  cursor (Nat.iter 4 advance (loaded scenario)) = (1, 0).
Proof.
  assert (H : forall j : nat,
             cursor (Nat.iter (total_verses scenario - 1 + j) advance
                              (loaded scenario)) = last_position scenario).
  { refine (proj2 (advance_reaches_last_verse (loaded scenario) _ _ eq_refl)).
    - discriminate.
    - repeat constructor; discriminate. }
  split; [exact (H 1%nat) | exact (H 2%nat)].
Defined.

(** The scenario of the specification, on screen: after three calls the
    reader shows v3 of the second chapter. *)
Example scenario_shows_v3 :
  render (state (Nat.iter 3 advance (loaded scenario)))
  = VerseView 2 "Ch2" "v3" 16.
Proof. reflexivity. Qed.

(** C3 as stated fails when a chapter has no verse: with two verses in all,
    one call from (0,0) stops at the empty second chapter, not at the last
    verse (2,0), and a further call still moves. *)
Lemma advance_reaches_last_verse_counterexample :
  chapters (state (loaded with_empty_chapter)) <> [] /\
  cursor (loaded with_empty_chapter) = (0, 0) /\
  ~ traversal_reaches_end (loaded with_empty_chapter).
Proof.
  split; [discriminate|]. split; [reflexivity|].
  intros [H _]. vm_compute in H. discriminate.
Qed.

(** ** Bookmark toggle *)

Lemma is_at_true (c v : Z) (b : Bookmark.t) :
  is_at c v b = true <-> b = Bookmark.mk c v.
Proof.
  unfold is_at. destruct b as [bc bv]. simpl.
  rewrite andb_true_iff, !Z.eqb_eq. split.
  - intros [-> ->]. reflexivity.
  - intro E. injection E as -> ->. split; reflexivity.
Qed.

Lemma existsb_is_at (c v : Z) (bs : list Bookmark.t) :
  existsb (is_at c v) bs = true <-> In (Bookmark.mk c v) bs.
Proof.
  rewrite existsb_exists. split.
  - intros (b & Hin & Hb). apply is_at_true in Hb. now subst b.
  - intro Hin. exists (Bookmark.mk c v). split; [exact Hin|].
    now apply is_at_true.
Qed.

Section Scan.

Context {A : Type} (p : A -> bool).

(** [findIndex] answers -1 exactly when no element satisfies the test. *)
Lemma findIndex_from_none (a : list A) : forall i : Z,
  0 <= i -> existsb p a = false -> JS.findIndex_from p i a = -1.
Proof.
  induction a as [|x r IH]; intros i Hi H; simpl in *; [reflexivity|].
  apply orb_false_iff in H as [Hx Hr]. rewrite Hx. apply IH; [lia | exact Hr].
Qed.

Lemma findIndex_from_some (a : list A) : forall i : Z,
  existsb p a = true -> i <= JS.findIndex_from p i a.
Proof.
  induction a as [|x r IH]; intros i H; simpl in *; [discriminate|].
  destruct (p x); [lia|]. simpl in H. specialize (IH (i + 1) H). lia.
Qed.

(** Filtering out a position before the scanned ones keeps them all. *)
Lemma filter_from_keeps (a : list A) : forall i k : Z,
  k < i -> JS.filter_from (fun _ index => negb (index =? k)) i a = a.
Proof.
  induction a as [|x r IH]; intros i k H; simpl; [reflexivity|].
  destruct (Z.eqb_spec i k); [lia|]. simpl. now rewrite IH by lia.
Qed.

(** Filtering out the position that [findIndex] found removes the first
    element that satisfies the test. *)
Lemma filter_found (a : list A) : forall i : Z,
  existsb p a = true ->
  JS.filter_from (fun _ index => negb (index =? JS.findIndex_from p i a)) i a
  = remove_first p a.
Proof.
  induction a as [|x r IH]; intros i H; simpl in *; [discriminate|].
  destruct (p x) eqn:Hx.
  - rewrite Z.eqb_refl. simpl. apply filter_from_keeps. lia.
  - simpl in H. pose proof (findIndex_from_some r (i + 1) H) as Hle.
    destruct (Z.eqb_spec i (JS.findIndex_from p (i + 1) r)); [lia|].
    simpl. now rewrite IH.
Qed.

Lemma remove_first_split (a : list A) :
  existsb p a = true ->
  exists l1 x l2,
    a = l1 ++ x :: l2 /\ p x = true /\ existsb p l1 = false /\
    remove_first p a = l1 ++ l2.
Proof.
  induction a as [|y r IH]; intro H; simpl in *; [discriminate|].
  destruct (p y) eqn:Hy.
  - exists [], y, r. repeat split; assumption.
  - simpl in H. destruct (IH H) as (l1 & x & l2 & -> & Hx & Hl1 & E).
    exists (y :: l1), x, l2. simpl. rewrite Hy, E. repeat split; assumption.
Qed.

Lemma remove_first_last (a : list A) (x : A) :
  existsb p a = false -> p x = true -> remove_first p (a ++ [x]) = a.
Proof.
  induction a as [|y r IH]; intros H Hx; simpl in *; [now rewrite Hx|].
  apply orb_false_iff in H as [Hy Hr]. rewrite Hy. now rewrite IH.
Qed.

Lemma remove_first_incl (a : list A) (x : A) :
  In x (remove_first p a) -> In x a.
Proof.
  induction a as [|y r IH]; simpl; [tauto|].
  destruct (p y); simpl; [tauto|]. intros [E|H]; [now left | right; auto].
Qed.

Lemma remove_first_NoDup (a : list A) : NoDup a -> NoDup (remove_first p a).
Proof.
  induction 1 as [|y r Hy Hr IH]; simpl; [constructor|].
  destruct (p y); [exact Hr|]. constructor; [|exact IH].
  intro Hin. apply Hy. now apply remove_first_incl in Hin.
Qed.

End Scan.

(** What a toggle leaves in the bookmark list. *)
Lemma toggle_bookmarks (w : World) :
  bookmarks (state (toggle w)) =
    if existsb (is_at (currentChapter (state w)) (currentVerse (state w)))
               (bookmarks (state w))
    then remove_first (is_at (currentChapter (state w)) (currentVerse (state w)))
                      (bookmarks (state w))
    else bookmarks (state w) ++ [here w].
Proof.
  unfold toggle, step, dispatch, handler, toggleBookmark, JS.findIndex, JS.filter.
  fold (is_at (currentChapter (state w)) (currentVerse (state w))).
  destruct (existsb _ _) eqn:E.
  - pose proof (findIndex_from_some _ _ 0 E) as Hle.
    destruct (Z.eqb_spec (JS.findIndex_from
                (is_at (currentChapter (state w)) (currentVerse (state w))) 0
                (bookmarks (state w))) (-1)) as [H|_]; [lia|].
    simpl. now apply filter_found.
  - rewrite findIndex_from_none by (assumption || lia). reflexivity.
Qed.

Lemma toggle_keeps (w : World) :
  chapters (state (toggle w)) = chapters (state w) /\
  cursor (toggle w) = cursor w /\
  highlights (state (toggle w)) = highlights (state w).
Proof.
  unfold toggle, step, dispatch, handler, toggleBookmark.
  destruct (negb _); repeat split.
Qed.

(** C5: a toggle removes the bookmark at the cursor's (chapter, verse) when
    the list has one (the first such entry, the others staying in order),
    and otherwise appends a bookmark at the cursor. *)
Theorem toggleBookmark_removes_or_appends (w : World) :
  let bs := bookmarks (state w) in
  let bs' := bookmarks (state (toggle w)) in
  (In (here w) bs ->
   exists l1 l2,
     bs = l1 ++ here w :: l2 /\ ~ In (here w) l1 /\ bs' = l1 ++ l2) /\
  (~ In (here w) bs -> bs' = bs ++ [here w]).
Proof.
  intros bs bs'. unfold bs'. rewrite toggle_bookmarks. fold bs. split.
  - intro Hin. apply existsb_is_at in Hin. rewrite Hin.
    destruct (remove_first_split _ _ Hin) as (l1 & x & l2 & E & Hx & Hl1 & R).
    apply is_at_true in Hx. subst x. exists l1, l2.
    repeat split; [exact E | | exact R].
    intro H1. apply existsb_is_at in H1. unfold bs in *. congruence.
  - intro Hnin. destruct (existsb _ bs) eqn:E; [|reflexivity].
    apply existsb_is_at in E. contradiction.
Qed.

Lemma toggleBookmark_removes_or_appends_witness :
  bookmarks (state (toggle (loaded scenario))) = [Bookmark.mk 0 0] /\
  exists l1 l2,
    bookmarks (state two_bookmarks) = l1 ++ Bookmark.mk 0 0 :: l2 /\
    ~ In (Bookmark.mk 0 0) l1 /\
    bookmarks (state (toggle two_bookmarks)) = l1 ++ l2.
Proof.
  split.
  - refine (proj2 (toggleBookmark_removes_or_appends (loaded scenario)) _).
    simpl. tauto.
  - refine (proj1 (toggleBookmark_removes_or_appends two_bookmarks) _).
    simpl. tauto.
Defined.

(** C6 as stated fails: with (0,0) and (0,1) bookmarked in this order and
    the cursor at (0,0), two toggles leave (0,1) before (0,0). *)
Lemma toggle_twice_counterexample :
  bookmarks (state two_bookmarks) = [Bookmark.mk 0 0; Bookmark.mk 0 1] /\
  bookmarks (state (toggle (toggle two_bookmarks)))
  = [Bookmark.mk 0 1; Bookmark.mk 0 0] /\
  bookmarks (state (toggle (toggle two_bookmarks)))
  <> bookmarks (state two_bookmarks).
Proof. repeat split. discriminate. Qed.

(** C6, amended: on a bookmark list without duplicates, two toggles at the
    same cursor give back the same entries (a permutation of the list);
    the list itself when the cursor was not bookmarked, and otherwise the
    list with the cursor's bookmark moved to the end. *)
Theorem toggle_twice (w : World) :
  NoDup (bookmarks (state w)) ->
  let bs := bookmarks (state w) in
  let bs'' := bookmarks (state (toggle (toggle w))) in
  Permutation bs'' bs /\
  (~ In (here w) bs -> bs'' = bs) /\
  (In (here w) bs ->
   exists l1 l2, bs = l1 ++ here w :: l2 /\ bs'' = l1 ++ l2 ++ [here w]).
Proof.
  intros Hnd bs bs''.
  set (p := is_at (currentChapter (state w)) (currentVerse (state w))).
  assert (Hp : p (here w) = true) by now apply is_at_true.
  assert (E2 : bs'' = if existsb p (bookmarks (state (toggle w)))
                      then remove_first p (bookmarks (state (toggle w)))
                      else bookmarks (state (toggle w)) ++ [here w]).
  { unfold bs''. rewrite toggle_bookmarks. unfold here, p.
    destruct (toggle_keeps w) as (_ & Hc & _). unfold cursor in Hc.
    injection Hc as -> ->. reflexivity. }
  rewrite toggle_bookmarks in E2. fold p bs in E2.
  destruct (existsb p bs) eqn:Ex.
  - (* bookmarked: removed, then appended at the end *)
    destruct (remove_first_split p bs Ex) as (l1 & x & l2 & E & Hx & Hl1 & R).
    apply is_at_true in Hx. fold (here w) in Hx. subst x.
    assert (Hl2 : existsb p l2 = false).
    { destruct (existsb p l2) eqn:Ex2; [|reflexivity].
      apply existsb_is_at in Ex2. fold (here w) in Ex2.
      unfold bs in E. rewrite E in Hnd. apply NoDup_remove_2 in Hnd.
      exfalso. apply Hnd. apply in_or_app. now right. }
    rewrite R, existsb_app, Hl1, Hl2 in E2. simpl in E2.
    rewrite <- app_assoc in E2.
    split; [|split].
    + rewrite E2, E. apply Permutation_app_head.
      apply Permutation_sym, Permutation_cons_append.
    + intro H. exfalso. apply H. apply existsb_is_at. exact Ex.
    + intros _. exists l1, l2. split; assumption.
  - (* not bookmarked: appended, then removed again *)
    rewrite existsb_app, Ex in E2. simpl in E2. rewrite Hp in E2. simpl in E2.
    rewrite (remove_first_last p bs (here w) Ex Hp) in E2.
    split; [|split].
    + now rewrite E2.
    + intros _. exact E2.
    + intro H. apply existsb_is_at in H. fold p in H. congruence.
Qed.

Lemma toggle_twice_witness :
  Permutation (bookmarks (state (toggle (toggle two_bookmarks))))
              (bookmarks (state two_bookmarks)) /\
  bookmarks (state (toggle (toggle (loaded scenario))))
  = bookmarks (state (loaded scenario)).
Proof.
  split.
  - refine (proj1 (toggle_twice two_bookmarks _)).
    repeat constructor; simpl; intuition discriminate.
  - refine (proj1 (proj2 (toggle_twice (loaded scenario) _)) _).
    + constructor.
    + simpl. tauto.
Defined.

(** ** Highlights *)

(** C9: [addHighlight] appends one record (cursor chapter, cursor verse,
    text) whatever the text and whatever the list holds already: the list
    is one longer and its old entries are its prefix, unchanged. *)
Theorem addHighlight_appends (w : World) (t : string) :
  let hs := highlights (state w) in
  let hs' := highlights (state (step (AddHighlight t) w)) in
  hs' = hs ++ [Highlight.mk (currentChapter (state w))
                            (currentVerse (state w)) t] /\
  List.length hs' = S (List.length hs) /\
  firstn (List.length hs) hs' = hs.
Proof.
  intros hs hs'. unfold hs'. simpl. fold hs. split; [reflexivity|]. split.
  - rewrite length_app. simpl. lia.
  - rewrite firstn_app, firstn_all, Nat.sub_diag. simpl. apply app_nil_r.
Qed.

(** ** No bookmark twice *)

Lemma react_NoDup (e : Event) (w : World) :
  NoDup (bookmarks (state w)) -> NoDup (bookmarks (state (react e w))).
Proof.
  intro Hnd. destruct e as [a|net]; simpl.
  - destruct a; try (unfold step, dispatch; simpl; exact Hnd).
    + unfold step, dispatch, handler, handleNextVerse.
      repeat (destruct (_ : bool); try exact Hnd).
    + unfold step, dispatch, handler, handlePreviousVerse.
      repeat (destruct (_ : bool); try exact Hnd).
    + fold (toggle w). rewrite toggle_bookmarks. destruct (existsb _ _) eqn:E.
      * now apply remove_first_NoDup.
      * apply NoDup_app; [exact Hnd | repeat constructor; simpl; tauto |].
        intros b Hb [<-|[]].
        apply existsb_is_at in Hb. unfold here in Hb. congruence.
    + unfold step, dispatch, handler. destruct (nth_error _ _); exact Hnd.
  - unfold fetchChapters, try_catch, bind, await.
    destruct net as [r|e]; [destruct (json r)|]; exact Hnd.
Qed.

(** C10: from the initial, empty bookmark list on, whatever the user does
    and however the fetch ends, no (chapter, verse) pair is bookmarked
    twice. *)
Theorem bookmarks_never_duplicate (es : list Event) :
  NoDup (bookmarks (state (run es initialWorld))).
Proof.
  assert (H : forall w, NoDup (bookmarks (state w)) ->
                        NoDup (bookmarks (state (run es w)))).
  { induction es as [|e r IH]; intros w Hw; [exact Hw|].
    simpl. apply IH. now apply react_NoDup. }
  apply H. constructor.
Qed.

(** ** The cursor invariant *)

Lemma position_ok_iff (chs : list Chapter) (c v : Z) :
  position_ok chs c v = true <->
  exists ch, JS.index chs c = Some ch /\ 0 <= v < JS.length (verses ch).
Proof.
  unfold position_ok. split.
  - intro H. apply andb_true_iff in H as [_ H].
    destruct (JS.index chs c) as [ch|]; [|discriminate].
    exists ch. split; [reflexivity|]. lia.
  - intros (ch & E & Hv). pose proof (index_Some chs c ch E) as [Hc _].
    rewrite E. apply andb_true_iff. split; [|lia].
    apply andb_true_iff. split; lia.
Qed.

Lemma index_nonempty (chs : list Chapter) (c : Z) (ch : Chapter) :
  no_empty_chapter chs -> JS.index chs c = Some ch ->
  0 < JS.length (verses ch).
Proof.
  intros Hall H. apply index_Some in H as [_ H].
  pose proof (nth_error_nonempty _ _ _ Hall H). unfold JS.length. lia.
Qed.

Lemma filter_from_incl {A : Type} (p : A -> Z -> bool) (a : list A) :
  forall (i : Z) (x : A), In x (JS.filter_from p i a) -> In x a.
Proof.
  induction a as [|y r IH]; intros i x; simpl; [tauto|].
  destruct (p y i); simpl; [intros [E|H]; [now left | right; eauto] |].
  intro H. right. eauto.
Qed.

(** C4 as stated fails when a chapter has no verse: [advance] from the
    in-bounds cursor (0,0) stops at (1,0) although chapter 1 has no verse,
    and [retreat] from the in-bounds cursor (2,0) stops at (1,-1). *)
Lemma cursor_invariant_counterexample :
  chapters (state (loaded with_empty_chapter)) <> [] /\
  cursor_ok (loaded with_empty_chapter) = true /\
  cursor (step NextVerse (loaded with_empty_chapter)) = (1, 0) /\
  cursor_ok (step NextVerse (loaded with_empty_chapter)) = false /\
  cursor_ok (moveTo 2 0 (loaded with_empty_chapter)) = true /\
  cursor (step PreviousVerse (moveTo 2 0 (loaded with_empty_chapter))) = (1, -1) /\
  cursor_ok (step PreviousVerse (moveTo 2 0 (loaded with_empty_chapter))) = false.
Proof. split; [discriminate | repeat split]. Qed.

(** C4, amended: when the chapter list is non-empty, every chapter has a
    verse, and the cursor and every stored bookmark are in bounds, every
    operation (advance, retreat, bookmark toggle, highlight capture, jump to
    a stored bookmark, font size) leaves the cursor and the stored
    bookmarks in bounds. *)
Theorem operations_preserve_cursor_invariant (a : Action) (w : World) :
  chapters (state w) <> [] ->
  no_empty_chapter (chapters (state w)) ->
  cursor_ok w = true ->
  bookmarks_ok w ->
  cursor_ok (step a w) = true /\ bookmarks_ok (step a w).
Proof.
  intros Hne Hall Hcur Hbm.
  assert (Hmove : forall c v, position_ok (chapters (state w)) c v = true ->
            cursor_ok (moveTo c v w) = true /\ bookmarks_ok (moveTo c v w)).
  { intros c v H. split; [exact H | exact Hbm]. }
  unfold cursor_ok in Hcur.
  pose proof (proj1 (position_ok_iff _ _ _) Hcur) as (ch & Hch & Hv).
  destruct a.
  - (* advance *)
    fold (advance w). rewrite (advance_eq w Hne).
    unfold verses_length_or. rewrite Hch.
    destruct (Z.ltb_spec (currentVerse (state w)) (JS.length (verses ch) - 1)).
    + apply Hmove. apply position_ok_iff. exists ch. split; [exact Hch | lia].
    + destruct (Z.ltb_spec (currentChapter (state w))
                           (JS.length (chapters (state w)) - 1)).
      * apply Hmove. apply position_ok_iff.
        pose proof (index_Some _ _ _ Hch) as [Hc _].
        destruct (index_in_range (chapters (state w))
                    (currentChapter (state w) + 1)) as [ch' Hch']; [lia|].
        exists ch'. split; [exact Hch'|].
        pose proof (index_nonempty _ _ _ Hall Hch'). lia.
      * split; assumption.
  - (* retreat *)
    fold (retreat w). rewrite (retreat_eq w Hne).
    destruct (Z.ltb_spec 0 (currentVerse (state w))).
    + apply Hmove. apply position_ok_iff. exists ch. split; [exact Hch | lia].
    + destruct (Z.ltb_spec 0 (currentChapter (state w))).
      * apply Hmove. apply position_ok_iff.
        pose proof (index_Some _ _ _ Hch) as [Hc _].
        destruct (index_in_range (chapters (state w))
                    (currentChapter (state w) - 1)) as [p Hp]; [lia|].
        exists p. split; [exact Hp|].
        unfold verses_length_or. rewrite Hp.
        pose proof (index_nonempty _ _ _ Hall Hp). lia.
      * split; assumption.
  - (* bookmark toggle *)
    unfold step, dispatch, handler, toggleBookmark, cursor_ok, bookmarks_ok.
    destruct (negb _); simpl; (split; [exact Hcur|]).
    + apply Forall_forall. intros b Hb. apply filter_from_incl in Hb.
      unfold bookmarks_ok in Hbm. rewrite Forall_forall in Hbm. now apply Hbm.
    + apply Forall_app. split; [exact Hbm|]. repeat constructor. exact Hcur.
  - (* highlight capture *)
    split; [exact Hcur | exact Hbm].
  - (* jump to a stored bookmark *)
    unfold step, dispatch, handler.
    destruct (nth_error (bookmarks (state w)) i) as [b|] eqn:Eb.
    + apply nth_error_In in Eb.
      unfold bookmarks_ok in Hbm. rewrite Forall_forall in Hbm.
      split; [exact (Hbm b Eb) | now apply Forall_forall].
    + split; [exact Hcur | exact Hbm].
  - (* font size *)
    split; [exact Hcur | exact Hbm].
Qed.

Lemma operations_preserve_cursor_invariant_witness :
  cursor_ok (step NextVerse (moveTo 0 1 two_bookmarks)) = true /\
  bookmarks_ok (step NextVerse (moveTo 0 1 two_bookmarks)).
Proof.
  apply (operations_preserve_cursor_invariant NextVerse (moveTo 0 1 two_bookmarks)).
  - discriminate.
  - repeat constructor; discriminate.
  - reflexivity.
  - repeat constructor.
Defined.

(** ** The failed fetch *)

(** C8: when the initial fetch fails, because [fetch] rejects or the body
    does not parse, [fetchChapters] returns normally; the error has been
    written to the console and an error toast shown, the chapter list is
    still empty, and the reader shows the no-content message. *)
Theorem fetch_failure_handled (net : Result Response) (e : Exn) (w : World) :
  fetch_failure net = Some e ->
  chapters (state w) = [] ->
  let w' := snd (fetchChapters net w) in
  fst (fetchChapters net w) = Ok tt /\
  trace w' = trace w
               ++ [ConsoleError "Error fetching chapters:" e;
                   ToastError "Failed to load chapters. Please try again later."] /\
  chapters (state w') = [] /\
  isLoading (state w') = false /\
  render (state w') = NoContentView.
Proof.
  intros Hfail Hempty.
  assert (E : fetchChapters net w =
              (Ok tt,
               {| state :=
                    {| chapters := chapters (state w);
                       currentChapter := currentChapter (state w);
                       currentVerse := currentVerse (state w);
                       fontSize := fontSize (state w);
                       bookmarks := bookmarks (state w);
                       highlights := highlights (state w);
                       isLoading := false |};
                  trace := (trace w ++ [ConsoleError "Error fetching chapters:" e])
                             ++ [ToastError
                                   "Failed to load chapters. Please try again later."]
               |})).
  { unfold fetchChapters, try_catch, bind, await. unfold fetch_failure in Hfail.
    destruct net as [r|e0].
    - destruct (json r) as [d|e0]; [discriminate|].
      injection Hfail as ->. reflexivity.
    - injection Hfail as ->. reflexivity. }
  rewrite E. simpl. rewrite <- app_assoc. simpl.
  unfold render. simpl. rewrite Hempty. repeat split.
Qed.

Lemma fetch_failure_handled_witness :
  fst (fetchChapters (Throw NetworkError) initialWorld) = Ok tt /\
  chapters (state (snd (fetchChapters (Throw NetworkError) initialWorld))) = [] /\
  render (state (snd (fetchChapters (Ok {| json := Throw SyntaxError |})
                                    initialWorld)))
  = NoContentView.
Proof.
  pose proof (fetch_failure_handled (Throw NetworkError) NetworkError
                initialWorld eq_refl eq_refl) as H1.
  pose proof (fetch_failure_handled (Ok {| json := Throw SyntaxError |})
                SyntaxError initialWorld eq_refl eq_refl) as H2.
  split; [exact (proj1 H1)|].
  split; [exact (proj1 (proj2 (proj2 H1)))|].
  exact (proj2 (proj2 (proj2 (proj2 H2)))).
Defined.

(** * Further properties of the component *)

(** ** Next and Previous undo each other *)

Lemma moveTo_here (w : World) :
  moveTo (currentChapter (state w)) (currentVerse (state w)) w = w.
Proof. destruct w as [[chs c v f bs hs l] tr]. reflexivity. Qed.

Lemma moveTo_back (c v c' v' : Z) (w : World) :
  c = currentChapter (state w) -> v = currentVerse (state w) ->
  moveTo c v (moveTo c' v' w) = w.
Proof. intros -> ->. destruct w as [[chs c v f bs hs l] tr]. reflexivity. Qed.

Lemma cursor_ok_chapters (w : World) :
  cursor_ok w = true -> chapters (state w) <> [].
Proof.
  unfold cursor_ok. intros H E. rewrite E in H.
  apply position_ok_iff in H as (ch & Hch & _).
  apply index_Some in Hch as [Hc _]. unfold JS.length in Hc. simpl in Hc. lia.
Qed.

(** X1: from an in-bounds cursor that is not on the last verse of the last
    chapter, Next followed by Previous gives back the world as it was. *)
Theorem retreat_after_advance (w : World) :
  cursor_ok w = true ->
  cursor w <> last_position (chapters (state w)) ->
  retreat (advance w) = w.
Proof.
  intros Hok Hlast. pose proof (cursor_ok_chapters w Hok) as Hne.
  unfold cursor_ok in Hok.
  apply position_ok_iff in Hok as (ch & Hch & Hv).
  pose proof (index_Some _ _ _ Hch) as [Hc _].
  rewrite (advance_eq w Hne). unfold verses_length_or. rewrite Hch.
  destruct (Z.ltb_spec (currentVerse (state w)) (JS.length (verses ch) - 1)).
  - rewrite retreat_eq by exact Hne. simpl.
    destruct (Z.ltb_spec 0 (currentVerse (state w) + 1)); [|lia].
    apply moveTo_back; lia.
  - destruct (Z.ltb_spec (currentChapter (state w))
                         (JS.length (chapters (state w)) - 1)).
    + rewrite retreat_eq by exact Hne. simpl.
      destruct (Z.ltb_spec 0 (currentChapter (state w) + 1)); [|lia].
      unfold verses_length_or. simpl.
      replace (currentChapter (state w) + 1 - 1)
        with (currentChapter (state w)) by lia.
      rewrite Hch. apply moveTo_back; lia.
    + exfalso. apply Hlast. unfold cursor, last_position.
      replace (JS.length (chapters (state w)) - 1)
        with (currentChapter (state w)) by lia.
      rewrite Hch. f_equal. lia.
Qed.

Lemma retreat_after_advance_witness :
  retreat (advance (moveTo 0 1 (loaded scenario))) = moveTo 0 1 (loaded scenario).
Proof.
  apply (retreat_after_advance (moveTo 0 1 (loaded scenario)));
    [reflexivity | discriminate].
Defined.

(** X2: from an in-bounds cursor other than (0,0), Previous followed by
    Next gives back the world as it was, also when the chapter before has
    no verse. *)
Theorem advance_after_retreat (w : World) :
  cursor_ok w = true ->
  cursor w <> (0, 0) ->
  advance (retreat w) = w.
Proof.
  intros Hok Hfirst. pose proof (cursor_ok_chapters w Hok) as Hne.
  unfold cursor_ok in Hok.
  apply position_ok_iff in Hok as (ch & Hch & Hv).
  pose proof (index_Some _ _ _ Hch) as [Hc _].
  rewrite (retreat_eq w Hne).
  destruct (Z.ltb_spec 0 (currentVerse (state w))).
  - rewrite advance_eq by exact Hne. unfold verses_length_or. simpl.
    rewrite Hch.
    destruct (Z.ltb_spec (currentVerse (state w) - 1)
                         (JS.length (verses ch) - 1)); [|lia].
    apply moveTo_back; lia.
  - assert (Hc0 : 0 < currentChapter (state w)).
    { destruct (Z.eq_dec (currentChapter (state w)) 0) as [E|E]; [|lia].
      exfalso. apply Hfirst. unfold cursor. f_equal; lia. }
    destruct (Z.ltb_spec 0 (currentChapter (state w))); [|lia].
    destruct (index_in_range (chapters (state w))
                (currentChapter (state w) - 1)) as [p Hp]; [lia|].
    unfold verses_length_or. rewrite Hp.
    rewrite advance_eq by exact Hne. unfold verses_length_or. simpl.
    rewrite Hp.
    destruct (Z.ltb_spec (JS.length (verses p) - 1) (JS.length (verses p) - 1));
      [lia|].
    destruct (Z.ltb_spec (currentChapter (state w) - 1)
                         (JS.length (chapters (state w)) - 1)); [|lia].
    apply moveTo_back; lia.
Qed.

Lemma advance_after_retreat_witness :
  advance (retreat (moveTo 2 0 (loaded with_empty_chapter)))
  = moveTo 2 0 (loaded with_empty_chapter).
Proof.
  apply (advance_after_retreat (moveTo 2 0 (loaded with_empty_chapter)));
    [reflexivity | discriminate].
Defined.

(** ** Reading order *)

Lemma nth_error_all_verses (chs : list Chapter) :
  forall (c v : nat) (ch : Chapter),
    nth_error chs c = Some ch -> (v < List.length (verses ch))%nat ->
    nth_error (all_verses chs) (chapter_offset chs c + v)
    = nth_error (verses ch) v.
Proof.
  unfold all_verses, chapter_offset, total_verses.
  induction chs as [|x r IH]; intros [|c] v ch H Hv; simpl in *;
    try discriminate.
  - injection H as ->. now apply nth_error_app1.
  - rewrite nth_error_app2 by lia.
    replace (List.length (verses x)
             + list_sum (map (fun ch0 => List.length (verses ch0)) (firstn c r))
             + v - List.length (verses x))%nat
      with (list_sum (map (fun ch0 => List.length (verses ch0)) (firstn c r))
            + v)%nat by lia.
    now apply IH.
Qed.

Lemma iter_advance_chapters (k : nat) (w : World) :
  chapters (state (Nat.iter k advance w)) = chapters (state w).
Proof.
  induction k as [|k IH]; [reflexivity|].
  simpl. unfold advance at 1. now rewrite step_chapters.
Qed.

Lemma at_verse_shown (w : World) (c v : nat) (ch : Chapter) :
  at_verse w c v ch ->
  currentVerseData (state w)
  = nth_error (all_verses (chapters (state w)))
              (chapter_offset (chapters (state w)) c + v).
Proof.
  intros (Hcur & Hch & Hv). injection Hcur as Ec Ev.
  unfold currentVerseData, currentChapterData.
  rewrite Ec, Ev, index_of_nat, Hch, index_of_nat.
  symmetry. now apply nth_error_all_verses.
Qed.

(** [k] calls of [advance] from a verse that has more than [k] verses after
    it arrive [k] verses further in reading order. *)
Lemma advance_steps (k : nat) : forall (w : World) (c v : nat) (ch : Chapter),
  no_empty_chapter (chapters (state w)) ->
  at_verse w c v ch ->
  (chapter_offset (chapters (state w)) c + v + k
   < total_verses (chapters (state w)))%nat ->
  exists c' v' ch',
    at_verse (Nat.iter k advance w) c' v' ch' /\
    (chapter_offset (chapters (state w)) c' + v'
     = chapter_offset (chapters (state w)) c + v + k)%nat.
Proof.
  induction k as [|k IH]; intros w c v ch Hall Hat Hk.
  - exists c, v, ch. split; [exact Hat | lia].
  - destruct (IH w c v ch Hall Hat) as (c1 & v1 & ch1 & Hat1 & E1); [lia|].
    pose proof (iter_advance_chapters k w) as Ech.
    assert (Hall1 : no_empty_chapter (chapters (state (Nat.iter k advance w))))
      by now rewrite Ech.
    destruct (advance_progress _ _ _ _ Hall1 Hat1)
      as [(He & _)|(_ & c2 & v2 & ch2 & Hat2 & E2)];
      rewrite Ech in *; [lia|].
    exists c2, v2, ch2. split; [exact Hat2 | lia].
Qed.

(** X3: when every chapter has a verse, the verse shown after [k] calls of
    [advance] from (0,0) is the [k]-th verse of the whole text: Next walks
    through all verses in order, none skipped and none repeated. *)
Theorem advance_reads_in_order (w : World) (k : nat) :
  no_empty_chapter (chapters (state w)) ->
  cursor w = (0, 0) ->
  (k < total_verses (chapters (state w)))%nat ->
  currentVerseData (state (Nat.iter k advance w))
  = nth_error (all_verses (chapters (state w))) k.
Proof.
  intros Hall Hcur Hk.
  destruct (chapters (state w)) as [|ch0 r] eqn:Echs;
    [unfold total_verses in Hk; simpl in Hk; lia|].
  assert (Hat : at_verse w 0 0 ch0).
  { unfold at_verse. rewrite Echs. repeat split; [exact Hcur|].
    apply (nth_error_nonempty (ch0 :: r) 0 ch0 Hall). reflexivity. }
  rewrite <- Echs in *.
  destruct (advance_steps k w 0%nat 0%nat ch0 Hall Hat) as (c & v & ch & Hat' & E);
    [exact Hk|].
  rewrite (at_verse_shown _ _ _ _ Hat'), iter_advance_chapters, E.
  reflexivity.
Qed.

Lemma advance_reads_in_order_witness :
  currentVerseData (state (Nat.iter 2 advance (loaded scenario)))
  = Some {| text := "v3" |}.
Proof.
  apply (advance_reads_in_order (loaded scenario) 2).
  - repeat constructor; discriminate.
  - reflexivity.
  - vm_compute. repeat constructor.
Defined.

(** One call of [retreat] at a verse: either this is the very first verse
    and nothing moves, or the cursor is at the verse before in reading
    order. *)
Lemma retreat_progress (w : World) (c v : nat) (ch : Chapter) :
  no_empty_chapter (chapters (state w)) ->
  at_verse w c v ch ->
  let chs := chapters (state w) in
  (c = 0%nat /\ v = 0%nat /\ retreat w = w)
  \/
  (exists c' v' ch',
     at_verse (retreat w) c' v' ch' /\
     S (chapter_offset chs c' + v') = (chapter_offset chs c + v)%nat).
Proof.
  intros Hall (Hcur & Hch & Hv) chs.
  assert (Hne : chapters (state w) <> []).
  { intro E. rewrite E in Hch. destruct c; discriminate. }
  injection Hcur as Ec Ev.
  rewrite (retreat_eq w Hne). rewrite Ec, Ev.
  destruct (Z.ltb_spec 0 (Z.of_nat v)) as [Hpos|Hz].
  - right. exists c, (v - 1)%nat, ch. split; [|lia].
    unfold at_verse. rewrite cursor_moveTo. simpl.
    repeat split; [f_equal; lia | exact Hch | lia].
  - assert (v = 0%nat) by lia. subst v.
    destruct (Z.ltb_spec 0 (Z.of_nat c)) as [Hcpos|Hcz].
    + right. destruct c as [|c0]; [lia|].
      destruct (nth_error (chapters (state w)) c0) as [p|] eqn:Hp.
      2:{ apply nth_error_None in Hp.
          assert (S c0 < List.length (chapters (state w)))%nat
            by (apply nth_error_Some; congruence). lia. }
      pose proof (nth_error_nonempty _ _ _ Hall Hp) as Hlen.
      pose proof (offset_S _ _ _ Hp) as HS. fold chs in HS.
      unfold verses_length_or.
      replace (Z.of_nat (S c0) - 1) with (Z.of_nat c0) by lia.
      rewrite index_of_nat, Hp.
      exists c0, (List.length (verses p) - 1)%nat, p. split; [|lia].
      unfold at_verse. rewrite cursor_moveTo. simpl.
      repeat split; [f_equal; unfold JS.length; lia | exact Hp | lia].
    + left. repeat split; lia.
Qed.

Lemma cursor_ok_at_verse (w : World) :
  cursor_ok w = true ->
  exists ch,
    at_verse w (Z.to_nat (currentChapter (state w)))
               (Z.to_nat (currentVerse (state w))) ch.
Proof.
  unfold cursor_ok. intro H.
  apply position_ok_iff in H as (ch & Hch & Hv).
  pose proof (index_Some _ _ _ Hch) as [Hc Hn].
  exists ch. unfold at_verse, cursor, JS.length in *. repeat split.
  - f_equal; lia.
  - exact Hn.
  - lia.
Qed.

Lemma retreat_iter (d : nat) : forall (w : World) (c v : nat) (ch : Chapter),
  no_empty_chapter (chapters (state w)) ->
  at_verse w c v ch ->
  (chapter_offset (chapters (state w)) c + v = d)%nat ->
  cursor (Nat.iter d retreat w) = (0, 0) /\
  retreat (Nat.iter d retreat w) = Nat.iter d retreat w.
Proof.
  induction d as [|d IH]; intros w c v ch Hall Hat Hd.
  - destruct (retreat_progress _ _ _ _ Hall Hat)
      as [(-> & -> & E)|(c' & v' & ch' & _ & Hs)]; [|lia].
    simpl. split; [|exact E]. destruct Hat as (Hcur & _). exact Hcur.
  - destruct (retreat_progress _ _ _ _ Hall Hat)
      as [(-> & -> & _)|(c' & v' & ch' & Hat' & Hs)];
      [unfold chapter_offset in Hd; simpl in Hd; lia|].
    rewrite iter_shift.
    assert (Ech : chapters (state (retreat w)) = chapters (state w))
      by apply step_chapters.
    apply (IH (retreat w) c' v' ch').
    + now rewrite Ech.
    + exact Hat'.
    + rewrite Ech. lia.
Qed.

(** X4: when every chapter has a verse, from an in-bounds cursor that has
    [p] verses before it in reading order, [p] calls of [retreat] reach
    (0,0), and so does any larger number of calls. *)
Theorem retreat_reaches_first_verse (w : World) (j : nat) :
  no_empty_chapter (chapters (state w)) ->
  cursor_ok w = true ->
  cursor (Nat.iter (linear_position w + j) retreat w) = (0, 0).
Proof.
  intros Hall Hok. destruct (cursor_ok_at_verse w Hok) as [ch Hat].
  destruct (retreat_iter (linear_position w) w _ _ ch Hall Hat) as [H0 Hfix];
    [reflexivity|].
  rewrite Nat.add_comm, Nat.iter_add, iter_fixed; assumption.
Qed.

Lemma retreat_reaches_first_verse_witness :
  cursor (Nat.iter 2 retreat (moveTo 1 0 (loaded scenario))) = (0, 0).
Proof.
  apply (retreat_reaches_first_verse (moveTo 1 0 (loaded scenario)) 0).
  - repeat constructor; discriminate.
  - reflexivity.
Defined.

(** ** What the reader shows *)

Lemma render_of_cursor_ok (w : World) :
  isLoading (state w) = false ->
  cursor_ok w = true ->
  exists ch v,
    currentChapterData (state w) = Some ch /\
    currentVerseData (state w) = Some v /\
    render (state w)
    = VerseView (currentChapter (state w) + 1) (name ch) (text v)
                (fontSize (state w)).
Proof.
  intros Hl Hok. pose proof (cursor_ok_chapters w Hok) as Hne.
  unfold cursor_ok in Hok. apply position_ok_iff in Hok as (ch & Hch & Hv).
  destruct (index_in_range (verses ch) (currentVerse (state w)) Hv) as [v Hvd].
  exists ch, v.
  assert (Ec : currentChapterData (state w) = Some ch) by exact Hch.
  assert (Ev : currentVerseData (state w) = Some v).
  { unfold currentVerseData. now rewrite Ec. }
  repeat split; [exact Ec | exact Ev|].
  unfold render. rewrite Hl, Ec, Ev.
  destruct (Z.ltb_spec 0 (JS.length (chapters (state w)))) as [_|H];
    [reflexivity|].
  exfalso. apply Hne. apply length_zero_iff.
  pose proof (length_nonneg (chapters (state w))). lia.
Qed.

(** X5: once loading is over, the reader shows a verse exactly when the
    cursor is in bounds, namely the verse under the cursor with its chapter
    number (counted from 1), chapter name and the font size; with the
    cursor out of bounds it shows the no-content message. *)
Theorem render_verse_iff_in_bounds (w : World) :
  isLoading (state w) = false ->
  (cursor_ok w = true ->
   exists ch v,
     currentChapterData (state w) = Some ch /\
     currentVerseData (state w) = Some v /\
     render (state w)
     = VerseView (currentChapter (state w) + 1) (name ch) (text v)
                 (fontSize (state w))) /\
  (cursor_ok w = false -> render (state w) = NoContentView).
Proof.
  intro Hl. split; [now apply render_of_cursor_ok|].
  intro Hbad. unfold render. rewrite Hl.
  destruct (Z.ltb_spec 0 (JS.length (chapters (state w)))); [|reflexivity].
  destruct (currentChapterData (state w)) as [ch|] eqn:Ec; [|reflexivity].
  destruct (currentVerseData (state w)) as [v|] eqn:Ev; [|reflexivity].
  exfalso. unfold currentVerseData in Ev. rewrite Ec in Ev.
  assert (Hok : cursor_ok w = true).
  { unfold cursor_ok. apply position_ok_iff. exists ch.
    split; [exact Ec|]. now apply index_Some in Ev as [Hv _]. }
  congruence.
Qed.

Lemma render_verse_iff_in_bounds_witness :
  render (state (moveTo 0 1 (loaded scenario))) = VerseView 1 "Ch1" "v2" 16 /\
  render (state (moveTo 7 0 (loaded scenario))) = NoContentView.
Proof.
  split.
  - destruct (proj1 (render_verse_iff_in_bounds (moveTo 0 1 (loaded scenario))
                       eq_refl) eq_refl) as (ch & v & Ec & Ev & R).
    injection Ec as <-. injection Ev as <-. exact R.
  - exact (proj2 (render_verse_iff_in_bounds (moveTo 7 0 (loaded scenario))
                    eq_refl) eq_refl).
Defined.

(** ** Loading *)

Lemma step_isLoading (a : Action) (w : World) :
  isLoading (state (step a w)) = isLoading (state w).
Proof.
  unfold step, dispatch. destruct a; simpl.
  - unfold handleNextVerse. destruct (_ =? _); [reflexivity|].
    destruct (_ <? _); [reflexivity|]. destruct (_ <? _); reflexivity.
  - unfold handlePreviousVerse. destruct (_ =? _); [reflexivity|].
    destruct (_ <? _); [reflexivity|]. destruct (_ <? _); reflexivity.
  - unfold toggleBookmark. destruct (negb _); reflexivity.
  - reflexivity.
  - destruct (nth_error _ _); reflexivity.
  - reflexivity.
Qed.

Lemma fetch_isLoading (net : Result Response) (w : World) :
  isLoading (state (snd (fetchChapters net w))) = false.
Proof.
  unfold fetchChapters, try_catch, bind, await.
  destruct net as [r|e]; [destruct (json r)|]; reflexivity.
Qed.

Lemma run_isLoading (es : list Event) : forall w : World,
  isLoading (state (run es w))
  = if existsb is_fetched es then false else isLoading (state w).
Proof.
  induction es as [|e r IH]; intro w; [reflexivity|].
  change (run (e :: r) w) with (run r (react e w)). rewrite IH.
  destruct e as [a|net]; simpl.
  - now rewrite step_isLoading.
  - rewrite fetch_isLoading. now destruct (existsb is_fetched r).
Qed.

(** X6: the reader shows the loading message exactly as long as the fetch
    has not settled: no user action ends loading, and once the fetch has
    settled, with success or not, loading never comes back. *)
Theorem loading_until_fetch_settles (es : list Event) :
  render (state (run es initialWorld)) = LoadingView
  <-> existsb is_fetched es = false.
Proof.
  pose proof (run_isLoading es initialWorld) as H. simpl in H.
  unfold render. destruct (existsb is_fetched es); rewrite H; split;
    try reflexivity; try discriminate.
  intro R. destruct (0 <? _); [|discriminate].
  destruct (currentChapterData _); [|discriminate].
  destruct (currentVerseData _); discriminate.
Qed.

(** ** What the fetch does *)

(** X7: [fetchChapters] never throws, whatever the network does, and it
    ends loading; it leaves the cursor, the font size, the bookmarks and
    the highlights alone.  On success the chapter list is the data and
    nothing is logged or shown; on failure the chapter list stays and the
    trace grows by the console error and the error toast. *)
Theorem fetchChapters_settles (net : Result Response) (w : World) :
  let w' := snd (fetchChapters net w) in
  fst (fetchChapters net w) = Ok tt /\
  isLoading (state w') = false /\
  cursor w' = cursor w /\
  fontSize (state w') = fontSize (state w) /\
  bookmarks (state w') = bookmarks (state w) /\
  highlights (state w') = highlights (state w) /\
  match net with
  | Ok {| json := Ok data |} =>
      chapters (state w') = data /\ trace w' = trace w
  | Ok {| json := Throw e |} | Throw e =>
      chapters (state w') = chapters (state w) /\
      trace w' = trace w
                   ++ [ConsoleError "Error fetching chapters:" e;
                       ToastError
                         "Failed to load chapters. Please try again later."]
  end.
Proof.
  unfold fetchChapters, try_catch, bind, await.
  destruct net as [[[d|e]]|e]; simpl; repeat split;
    now rewrite <- app_assoc.
Qed.

(** ** Before and after the chapters arrive *)

Lemma run_app (es1 es2 : list Event) (w : World) :
  run (es1 ++ es2) w = run es2 (run es1 w).
Proof. unfold run. apply fold_left_app. Qed.

Lemma step_preload (a : Action) (w : World) : preload w -> preload (step a w).
Proof.
  intros (Hch & Hcur & Hbm). unfold preload, step, dispatch, cursor in *.
  destruct a; simpl.
  - unfold handleNextVerse. rewrite Hch. simpl. auto.
  - unfold handlePreviousVerse. rewrite Hch. simpl. auto.
  - unfold toggleBookmark. injection Hcur as Hc Hv.
    destruct (negb _); simpl; (repeat split; [exact Hch | congruence |]).
    + apply Forall_forall. intros b Hb. apply filter_from_incl in Hb.
      rewrite Forall_forall in Hbm. now apply Hbm.
    + apply Forall_app. split; [exact Hbm|]. repeat constructor. congruence.
  - auto.
  - destruct (nth_error (bookmarks (state w)) i) as [b|] eqn:Eb; simpl; [|auto].
    apply nth_error_In in Eb.
    rewrite (proj1 (Forall_forall _ _) Hbm b Eb). simpl. auto.
  - auto.
Qed.

Lemma run_user_preload (acts : list Action) : forall w : World,
  preload w -> preload (run (user acts) w).
Proof.
  induction acts as [|a r IH]; intros w H; [exact H|].
  simpl. apply IH. now apply step_preload.
Qed.

Lemma initial_preload : preload initialWorld.
Proof. repeat split. constructor. Qed.

(** X8: whatever the user does while the chapters are loading (navigation,
    bookmarks, highlights, font size), when the chapters arrive the reader
    opens on the first verse of the first chapter; it shows the no-content
    message when no chapter arrives or the first chapter has no verse. *)
Theorem opens_on_first_verse (acts : list Action) (chs : list Chapter) :
  render (state (run (user acts ++ [Fetched (Ok {| json := Ok chs |})])
                     initialWorld))
  = match chs with
    | ch0 :: _ =>
        match verses ch0 with
        | v0 :: _ =>
            VerseView 1 (name ch0) (text v0)
                      (fontSize (state (run (user acts) initialWorld)))
        | [] => NoContentView
        end
    | [] => NoContentView
    end.
Proof.
  rewrite run_app.
  destruct (run_user_preload acts initialWorld initial_preload)
    as (_ & Hcur & _).
  set (w := run (user acts) initialWorld) in *.
  unfold cursor in Hcur. injection Hcur as Hc Hv.
  unfold render, currentVerseData, currentChapterData. simpl.
  rewrite Hc, Hv.
  destruct chs as [|ch0 r]; [reflexivity|].
  unfold JS.length. simpl.
  destruct (verses ch0) as [|v0 vs]; reflexivity.
Qed.

Lemma step_in_bounds (a : Action) (w : World) :
  in_bounds w -> in_bounds (step a w).
Proof.
  intros (Hne & Hall & Hcur & Hbm).
  assert (Hframe : forall w', chapters (state w') = chapters (state w) ->
            cursor_ok w' = true -> bookmarks_ok w' -> in_bounds w').
  { intros w' E H1 H2. unfold in_bounds. rewrite E. auto. }
  assert (Hmove : forall c v, position_ok (chapters (state w)) c v = true ->
            in_bounds (moveTo c v w)).
  { intros c v H. apply Hframe; [reflexivity | exact H | exact Hbm]. }
  assert (Hw : in_bounds w) by (apply Hframe; auto).
  pose proof Hcur as Hpos. unfold cursor_ok in Hpos.
  apply position_ok_iff in Hpos as (ch & Hch & Hv).
  pose proof (index_Some _ _ _ Hch) as [Hc _].
  destruct a.
  - fold (advance w). rewrite (advance_eq w Hne).
    unfold verses_length_or. rewrite Hch.
    destruct (Z.ltb_spec (currentVerse (state w)) (JS.length (verses ch) - 1)).
    { apply Hmove, position_ok_iff. exists ch. split; [exact Hch | lia]. }
    destruct (Z.ltb_spec (currentChapter (state w))
                         (JS.length (chapters (state w)) - 1)); [|exact Hw].
    destruct (index_in_range (chapters (state w))
                (currentChapter (state w) + 1)) as [ch' Hch']; [lia|].
    apply Hmove, position_ok_iff. exists ch'. split; [exact Hch'|].
    pose proof (index_nonempty _ _ _ Hall Hch'). lia.
  - fold (retreat w). rewrite (retreat_eq w Hne).
    destruct (Z.ltb_spec 0 (currentVerse (state w))).
    { apply Hmove, position_ok_iff. exists ch. split; [exact Hch | lia]. }
    destruct (Z.ltb_spec 0 (currentChapter (state w))); [|exact Hw].
    destruct (index_in_range (chapters (state w))
                (currentChapter (state w) - 1)) as [p Hp]; [lia|].
    apply Hmove, position_ok_iff. exists p. split; [exact Hp|].
    unfold verses_length_or. rewrite Hp.
    pose proof (index_nonempty _ _ _ Hall Hp). lia.
  - fold (toggle w). destruct (toggle_keeps w) as (Ech & Ecur & _).
    apply Hframe; [exact Ech | |].
    + unfold cursor in Ecur. injection Ecur as Ec Ev.
      unfold cursor_ok. now rewrite Ech, Ec, Ev.
    + unfold bookmarks_ok. rewrite Ech, toggle_bookmarks.
      destruct (existsb _ _).
      * apply Forall_forall. intros b Hb. apply remove_first_incl in Hb.
        unfold bookmarks_ok in Hbm. rewrite Forall_forall in Hbm. now apply Hbm.
      * apply Forall_app. split; [exact Hbm|]. repeat constructor. exact Hcur.
  - apply Hframe; [reflexivity | exact Hcur | exact Hbm].
  - unfold step, dispatch, handler.
    destruct (nth_error (bookmarks (state w)) i) as [b|] eqn:Eb; [|exact Hw].
    apply nth_error_In in Eb.
    unfold bookmarks_ok in Hbm. rewrite Forall_forall in Hbm.
    apply Hframe; [reflexivity | exact (Hbm b Eb) | now apply Forall_forall].
  - apply Hframe; [reflexivity | exact Hcur | exact Hbm].
Qed.

Lemma run_user_in_bounds (acts : list Action) : forall w : World,
  in_bounds w -> in_bounds (run (user acts) w).
Proof.
  induction acts as [|a r IH]; intros w H; [exact H|].
  simpl. apply IH. now apply step_in_bounds.
Qed.

Lemma run_user_isLoading (acts : list Action) : forall w : World,
  isLoading (state (run (user acts) w)) = isLoading (state w).
Proof.
  induction acts as [|a r IH]; intro w; [reflexivity|].
  simpl. rewrite IH. apply step_isLoading.
Qed.

(** X9: when the chapters that arrive are not empty and every chapter has
    a verse, then whatever the user did before and does afterwards, the
    cursor and all bookmarks name verses and the reader shows the verse
    under the cursor, never the no-content message. *)
Theorem loaded_reader_shows_a_verse
  (before after : list Action) (chs : list Chapter) :
  chs <> [] ->
  no_empty_chapter chs ->
  let w := run (user before ++ Fetched (Ok {| json := Ok chs |}) :: user after)
               initialWorld in
  in_bounds w /\
  exists ch v,
    currentChapterData (state w) = Some ch /\
    currentVerseData (state w) = Some v /\
    render (state w)
    = VerseView (currentChapter (state w) + 1) (name ch) (text v)
                (fontSize (state w)).
Proof.
  intros Hne Hall w.
  assert (E : w = run (user after)
                    (react (Fetched (Ok {| json := Ok chs |}))
                           (run (user before) initialWorld))).
  { unfold w. now rewrite run_app. }
  destruct (run_user_preload before initialWorld initial_preload)
    as (_ & Hcur & Hbm).
  set (w0 := run (user before) initialWorld) in *.
  unfold cursor in Hcur. injection Hcur as Hc Hv.
  assert (H00 : position_ok chs 0 0 = true).
  { apply position_ok_iff. destruct chs as [|ch0 r]; [contradiction|].
    exists ch0. split; [reflexivity|].
    pose proof (nth_error_nonempty (ch0 :: r) 0 ch0 Hall eq_refl).
    unfold JS.length. lia. }
  assert (Hin : in_bounds (react (Fetched (Ok {| json := Ok chs |})) w0)).
  { unfold in_bounds, cursor_ok, bookmarks_ok. simpl. rewrite Hc, Hv.
    repeat split; try assumption.
    apply Forall_forall. intros b Hb. rewrite Forall_forall in Hbm.
    rewrite (Hbm b Hb). exact H00. }
  assert (Hw : in_bounds w) by (rewrite E; now apply run_user_in_bounds).
  split; [exact Hw|].
  apply render_of_cursor_ok; [|apply Hw].
  rewrite E, run_user_isLoading. reflexivity.
Qed.

Lemma loaded_reader_shows_a_verse_witness :
  render (state (run (user [ToggleBookmark; NextVerse]
                      ++ Fetched (Ok {| json := Ok scenario |})
                      :: user [NextVerse; NextVerse; JumpToBookmark 0])
                     initialWorld))
  = VerseView 1 "Ch1" "v1" 16.
Proof.
  destruct (loaded_reader_shows_a_verse [ToggleBookmark; NextVerse]
              [NextVerse; NextVerse; JumpToBookmark 0] scenario)
    as (_ & ch & v & Ec & Ev & R).
  - discriminate.
  - repeat constructor; discriminate.
  - injection Ec as <-. injection Ev as <-. exact R.
Defined.

(** ** Toasts *)

Lemma toggle_trace (w : World) :
  trace (toggle w) =
    trace w
      ++ [ToastSuccess
            (if existsb (is_at (currentChapter (state w))
                               (currentVerse (state w)))
                        (bookmarks (state w))
             then "Bookmark removed" else "Bookmark added")].
Proof.
  unfold toggle, step, dispatch, handler, toggleBookmark, JS.findIndex.
  fold (is_at (currentChapter (state w)) (currentVerse (state w))).
  destruct (existsb _ _) eqn:E.
  - pose proof (findIndex_from_some _ _ 0 E) as Hle.
    destruct (Z.eqb_spec (JS.findIndex_from
                (is_at (currentChapter (state w)) (currentVerse (state w))) 0
                (bookmarks (state w))) (-1)) as [H|_]; [lia|].
    reflexivity.
  - rewrite findIndex_from_none by (assumption || lia). reflexivity.
Qed.

Lemma remove_first_length {A : Type} (p : A -> bool) (a : list A) :
  existsb p a = true ->
  S (List.length (remove_first p a)) = List.length a.
Proof.
  intro H. destruct (remove_first_split p a H) as (l1 & x & l2 & -> & _ & _ & ->).
  rewrite !length_app. simpl. lia.
Qed.

(** X10: the toast of a toggle says what happened: Bookmark removed when
    the cursor was bookmarked, and then the list is one entry shorter;
    Bookmark added when it was not, and then the list is one entry
    longer.  Either way exactly one toast is shown. *)
Theorem toggle_toast_tells (w : World) :
  let bs := bookmarks (state w) in
  let bs' := bookmarks (state (toggle w)) in
  (In (here w) bs ->
   trace (toggle w) = trace w ++ [ToastSuccess "Bookmark removed"] /\
   S (List.length bs') = List.length bs) /\
  (~ In (here w) bs ->
   trace (toggle w) = trace w ++ [ToastSuccess "Bookmark added"] /\
   List.length bs' = S (List.length bs)).
Proof.
  intros bs bs'. unfold bs'. rewrite toggle_trace, toggle_bookmarks. fold bs.
  split; intro H.
  - apply existsb_is_at in H. rewrite H. split; [reflexivity|].
    now apply remove_first_length.
  - destruct (existsb _ bs) eqn:E.
    + apply existsb_is_at in E. contradiction.
    + split; [reflexivity|]. rewrite length_app. simpl. lia.
Qed.

Lemma toggle_toast_tells_witness :
  trace (toggle two_bookmarks)
  = trace two_bookmarks ++ [ToastSuccess "Bookmark removed"] /\
  trace (toggle (loaded scenario))
  = trace (loaded scenario) ++ [ToastSuccess "Bookmark added"].
Proof.
  split.
  - refine (proj1 (proj1 (toggle_toast_tells two_bookmarks) _)).
    simpl. tauto.
  - refine (proj1 (proj2 (toggle_toast_tells (loaded scenario)) _)).
    simpl. tauto.
Defined.

Lemma step_trace (a : Action) (w : World) :
  exists msg,
    trace (step a w)
    = trace w ++ (if shows_toast a then [ToastSuccess msg] else []).
Proof.
  destruct a; simpl.
  - exists EmptyString. unfold step, dispatch, handler, handleNextVerse.
    rewrite app_nil_r. destruct (_ =? _); [reflexivity|].
    destruct (_ <? _); [reflexivity|]. destruct (_ <? _); reflexivity.
  - exists EmptyString. unfold step, dispatch, handler, handlePreviousVerse.
    rewrite app_nil_r. destruct (_ =? _); [reflexivity|].
    destruct (_ <? _); [reflexivity|]. destruct (_ <? _); reflexivity.
  - eexists. apply toggle_trace.
  - eexists. reflexivity.
  - exists EmptyString. unfold step, dispatch, handler. rewrite app_nil_r.
    destruct (nth_error _ _); reflexivity.
  - exists EmptyString. now rewrite app_nil_r.
Qed.

(** X11: every bookmark toggle and every highlight capture shows exactly
    one success toast, and navigation, bookmark jumps and the font size
    slider show none: after any user actions the trace has grown by as
    many success toasts as there were toggles and captures. *)
Theorem one_toast_per_annotation (acts : list Action) (w : World) :
  exists msgs,
    trace (run (user acts) w) = trace w ++ map ToastSuccess msgs /\
    List.length msgs = List.length (List.filter shows_toast acts).
Proof.
  revert w. induction acts as [|a r IH]; intro w.
  - exists []. simpl. now rewrite app_nil_r.
  - simpl. destruct (IH (step a w)) as (msgs & E & L).
    destruct (step_trace a w) as [msg Ea]. rewrite E, Ea.
    destruct (shows_toast a).
    + exists (msg :: msgs). simpl. rewrite <- app_assoc. simpl.
      split; [reflexivity | now rewrite L].
    + exists msgs. now rewrite app_nil_r.
Qed.

(** ** Highlights over time *)

Lemma react_highlights (e : Event) (w : World) :
  exists added,
    highlights (state (react e w)) = highlights (state w) ++ added /\
    map Highlight.text added = captured_texts [e].
Proof.
  destruct e as [a|net]; simpl.
  - destruct a; simpl.
    + exists []. rewrite app_nil_r. unfold step, dispatch, handler, handleNextVerse.
      split; [|reflexivity]. destruct (_ =? _); [reflexivity|].
      destruct (_ <? _); [reflexivity|]. destruct (_ <? _); reflexivity.
    + exists []. rewrite app_nil_r.
      unfold step, dispatch, handler, handlePreviousVerse.
      split; [|reflexivity]. destruct (_ =? _); [reflexivity|].
      destruct (_ <? _); [reflexivity|]. destruct (_ <? _); reflexivity.
    + exists []. rewrite app_nil_r. split; [|reflexivity].
      apply (toggle_keeps w).
    + eexists. split; reflexivity.
    + exists []. rewrite app_nil_r. unfold step, dispatch, handler.
      split; [|reflexivity]. destruct (nth_error _ _); reflexivity.
    + exists []. rewrite app_nil_r. split; reflexivity.
  - exists []. rewrite app_nil_r. split; [|reflexivity].
    unfold fetchChapters, try_catch, bind, await.
    destruct net as [r|e]; [destruct (json r)|]; reflexivity.
Qed.

(** X12: the highlight list is append-only and records every capture:
    after any events the old highlights are still there, unchanged and in
    front, followed by one entry per [addHighlight] call carrying the texts
    handed in, in order, repeated texts and the empty text included. *)
Theorem highlights_record_captures (es : list Event) (w : World) :
  exists added,
    highlights (state (run es w)) = highlights (state w) ++ added /\
    map Highlight.text added = captured_texts es.
Proof.
  revert w. induction es as [|e r IH]; intro w.
  - exists []. simpl. now rewrite app_nil_r.
  - change (run (e :: r) w) with (run r (react e w)).
    destruct (IH (react e w)) as (l2 & E2 & T2).
    destruct (react_highlights e w) as (l1 & E1 & T1).
    exists (l1 ++ l2). rewrite E2, E1, <- app_assoc. split; [reflexivity|].
    rewrite map_app, T1, T2. unfold captured_texts. simpl.
    now rewrite app_nil_r.
Qed.

(** ** The navigation buttons *)

Lemma moveTo_same (c v : Z) (w : World) :
  moveTo c v w = w -> c = currentChapter (state w) /\ v = currentVerse (state w).
Proof.
  intro E. split.
  - now apply (f_equal (fun x => currentChapter (state x))) in E.
  - now apply (f_equal (fun x => currentVerse (state x))) in E.
Qed.

(** X13: with the cursor in bounds, the Previous button is disabled
    exactly when [retreat] would change nothing, and the Next button is
    disabled exactly when [advance] would change nothing. *)
Theorem buttons_disabled_iff_noop (w : World) :
  cursor_ok w = true ->
  (previousDisabled (state w) = true <-> retreat w = w) /\
  (nextDisabled (state w) = true <-> advance w = w).
Proof.
  intro Hok. pose proof (cursor_ok_chapters w Hok) as Hne.
  unfold cursor_ok in Hok. apply position_ok_iff in Hok as (ch & Hch & Hv).
  pose proof (index_Some _ _ _ Hch) as [Hc _].
  unfold previousDisabled, nextDisabled.
  rewrite (retreat_eq w Hne), (advance_eq w Hne).
  unfold verses_length_or. rewrite Hch.
  rewrite !andb_true_iff, !Z.eqb_eq. split.
  - destruct (Z.ltb_spec 0 (currentVerse (state w)));
      [|destruct (Z.ltb_spec 0 (currentChapter (state w)))]; split;
      try (intros [? ?]; lia);
      try (intro E; apply moveTo_same in E; lia);
      try reflexivity.
    intros _. lia.
  - destruct (Z.ltb_spec (currentVerse (state w)) (JS.length (verses ch) - 1));
      [|destruct (Z.ltb_spec (currentChapter (state w))
                             (JS.length (chapters (state w)) - 1))]; split;
      try (intros [? ?]; lia);
      try (intro E; apply moveTo_same in E; lia);
      try reflexivity.
    intros _. lia.
Qed.

Lemma buttons_disabled_iff_noop_witness :
  (previousDisabled (state (loaded scenario)) = true
   <-> retreat (loaded scenario) = loaded scenario) /\
  (nextDisabled (state (loaded scenario)) = true
   <-> advance (loaded scenario) = loaded scenario).
Proof. apply (buttons_disabled_iff_noop (loaded scenario)). reflexivity. Defined.

(** X14: as long as no chapters have arrived, whatever the user does, the
    Previous button is disabled and the Next button is enabled, although
    neither [advance] nor [retreat] changes anything. *)
Theorem buttons_while_empty (acts : list Action) :
  let w := run (user acts) initialWorld in
  previousDisabled (state w) = true /\
  nextDisabled (state w) = false /\
  advance w = w /\ retreat w = w.
Proof.
  intro w.
  destruct (run_user_preload acts initialWorld initial_preload)
    as (Hch & Hcur & _).
  fold w in Hch, Hcur. unfold cursor in Hcur. injection Hcur as Hc Hv.
  unfold previousDisabled, nextDisabled, advance, retreat, step, dispatch,
    handler, handleNextVerse, handlePreviousVerse.
  rewrite Hch, Hc, Hv. repeat split.
Qed.

(** ** Bookmarks as a way back *)

Lemma step_bookmarks (a : Action) (w : World) :
  is_toggle a = false -> bookmarks (state (step a w)) = bookmarks (state w).
Proof.
  intro H. unfold step, dispatch. destruct a; simpl; try discriminate.
  - unfold handleNextVerse. destruct (_ =? _); [reflexivity|].
    destruct (_ <? _); [reflexivity|]. destruct (_ <? _); reflexivity.
  - unfold handlePreviousVerse. destruct (_ =? _); [reflexivity|].
    destruct (_ <? _); [reflexivity|]. destruct (_ <? _); reflexivity.
  - reflexivity.
  - destruct (nth_error _ _); reflexivity.
  - reflexivity.
Qed.

Lemma run_user_bookmarks (acts : list Action) : forall w : World,
  forallb (fun a => negb (is_toggle a)) acts = true ->
  bookmarks (state (run (user acts) w)) = bookmarks (state w).
Proof.
  induction acts as [|a r IH]; intros w H; [reflexivity|].
  simpl in H. apply andb_true_iff in H as [Ha Hr].
  simpl. rewrite (IH _ Hr). apply step_bookmarks.
  now destruct (is_toggle a).
Qed.

(** X15: a bookmark leads back to where it was set: after bookmarking a
    position that was not bookmarked, and then any navigation, captures,
    jumps and font changes (no further toggle), pressing the button of the
    new bookmark, the last of the list, puts the cursor back where the
    bookmark was set. *)
Theorem jump_returns_to_bookmark (w : World) (acts : list Action) :
  ~ In (here w) (bookmarks (state w)) ->
  forallb (fun a => negb (is_toggle a)) acts = true ->
  cursor (step (JumpToBookmark (List.length (bookmarks (state w))))
               (run (user acts) (toggle w)))
  = cursor w.
Proof.
  intros Hnin Hacts.
  pose proof (run_user_bookmarks acts (toggle w) Hacts) as Eb.
  rewrite toggle_bookmarks in Eb.
  destruct (existsb _ (bookmarks (state w))) eqn:Ex;
    [apply existsb_is_at in Ex; contradiction|].
  unfold step, dispatch, handler. rewrite Eb.
  rewrite nth_error_app2, Nat.sub_diag by lia. reflexivity.
Qed.

Lemma jump_returns_to_bookmark_witness :
  cursor (step (JumpToBookmark 0)
               (run (user [NextVerse; NextVerse; AddHighlight "om"])
                    (toggle (moveTo 0 1 (loaded scenario)))))
  = (0, 1).
Proof.
  apply (jump_returns_to_bookmark (moveTo 0 1 (loaded scenario))
           [NextVerse; NextVerse; AddHighlight "om"]).
  - simpl. tauto.
  - reflexivity.
Defined.

(** ** The font size *)

Lemma react_fontSize (e : Event) (w : World) :
  fontSize (state (react e w))
  = match e with
    | Act (ChangeFontSize px) => px
    | _ => fontSize (state w)
    end.
Proof.
  destruct e as [a|net]; simpl.
  - unfold step, dispatch. destruct a; simpl; try reflexivity.
    + unfold handleNextVerse. destruct (_ =? _); [reflexivity|].
      destruct (_ <? _); [reflexivity|]. destruct (_ <? _); reflexivity.
    + unfold handlePreviousVerse. destruct (_ =? _); [reflexivity|].
      destruct (_ <? _); [reflexivity|]. destruct (_ <? _); reflexivity.
    + unfold toggleBookmark. destruct (negb _); reflexivity.
    + destruct (nth_error _ _); reflexivity.
  - unfold fetchChapters, try_catch, bind, await.
    destruct net as [r|e]; [destruct (json r)|]; reflexivity.
Qed.

(** X16: when the slider only reports values within the bounds it is
    given, 12 to 24, the font size is within them at all times, from the
    initial 16 on: no other action and no fetch outcome changes it. *)
Theorem font_size_within_slider_bounds (es : list Event) :
  (forall px, In (Act (ChangeFontSize px)) es -> sliderMin <= px <= sliderMax) ->
  sliderMin <= fontSize (state (run es initialWorld)) <= sliderMax.
Proof.
  assert (H : forall w,
             sliderMin <= fontSize (state w) <= sliderMax ->
             (forall px, In (Act (ChangeFontSize px)) es ->
                         sliderMin <= px <= sliderMax) ->
             sliderMin <= fontSize (state (run es w)) <= sliderMax).
  { induction es as [|e r IH]; intros w Hw Hes; [exact Hw|].
    change (run (e :: r) w) with (run r (react e w)). apply IH.
    - rewrite react_fontSize. destruct e as [[| | | | |px]|]; try exact Hw.
      apply Hes. now left.
    - intros px Hin. apply Hes. now right. }
  intro Hes. apply H; [|exact Hes].
  unfold sliderMin, sliderMax. simpl. lia.
Qed.

Lemma font_size_within_slider_bounds_witness :
  sliderMin
  <= fontSize (state (run [Act (ChangeFontSize 24); Act NextVerse;
                           Act (ChangeFontSize 13)] initialWorld))
  <= sliderMax.
Proof.
  apply (font_size_within_slider_bounds
           [Act (ChangeFontSize 24); Act NextVerse; Act (ChangeFontSize 13)]).
  intros px [E|[E|[E|[]]]]; inversion E; subst; unfold sliderMin, sliderMax; lia.
Defined.

(** ** The bookmark tab *)

Example bookmarkLabel_first : bookmarkLabel (Bookmark.mk 0 0) = "Chapter 1, Verse 1"%string.
Proof. reflexivity. Qed.

Example bookmarkLabel_large :
  bookmarkLabel (Bookmark.mk 17 77) = "Chapter 18, Verse 78"%string.
Proof. reflexivity. Qed.

Lemma uint_comma_free (d : Decimal.uint) :
  comma_free (NilEmpty.string_of_uint d) = true.
Proof. induction d; simpl; auto. Qed.

Lemma number_comma_free (n : Z) : comma_free (numberToString n) = true.
Proof.
  unfold numberToString. destruct (Z.to_int n); simpl; apply uint_comma_free.
Qed.

Lemma numberToString_inj (a b : Z) :
  numberToString a = numberToString b -> a = b.
Proof.
  unfold numberToString. intro E.
  apply (f_equal NilEmpty.int_of_string) in E. rewrite !NilEmpty.isi in E.
  injection E as E. rewrite <- (DecimalZ.of_to a), <- (DecimalZ.of_to b).
  now rewrite E.
Qed.

Lemma split_at_comma (a : string) : forall (a' r r' : string),
  comma_free a = true -> comma_free a' = true ->
  (a ++ String "," r)%string = (a' ++ String "," r')%string ->
  a = a' /\ r = r'.
Proof.
  induction a as [|c a IH]; intros [|c' a'] r r' Ha Ha' E; simpl in *.
  - injection E as ->. now split.
  - injection E as <- _. simpl in Ha'. discriminate.
  - injection E as -> _. simpl in Ha. discriminate.
  - injection E as -> E. apply andb_true_iff in Ha as [_ Ha].
    apply andb_true_iff in Ha' as [_ Ha'].
    destruct (IH a' r r' Ha Ha' E) as [-> ->]. now split.
Qed.

Lemma bookmarkLabel_inj (a b : Bookmark.t) :
  bookmarkLabel a = bookmarkLabel b -> a = b.
Proof.
  unfold bookmarkLabel. intro E. simpl in E.
  injection E as E.
  apply split_at_comma in E as [E1 E2]; try apply number_comma_free.
  simpl in E2. injection E2 as E2.
  apply numberToString_inj in E1, E2.
  destruct a as [ac av], b as [bc bv]. simpl in *. f_equal; lia.
Qed.

Lemma run_NoDup (es : list Event) : forall w : World,
  NoDup (bookmarks (state w)) -> NoDup (bookmarks (state (run es w))).
Proof.
  induction es as [|e r IH]; intros w H; [exact H|].
  change (run (e :: r) w) with (run r (react e w)).
  apply IH. now apply react_NoDup.
Qed.

Lemma NoDup_map_injective {A B : Type} (f : A -> B) (l : list A) :
  (forall x y, f x = f y -> x = y) -> NoDup l -> NoDup (map f l).
Proof.
  intros Hinj. induction 1 as [|x r Hx Hr IH]; simpl; constructor; [|exact IH].
  intro Hin. apply in_map_iff in Hin as (y & E & Hy).
  apply Hinj in E. subst y. contradiction.
Qed.

(** X17: the bookmark tab never shows the same text on two buttons:
    whatever happened, the texts Chapter c+1, Verse v+1 of the buttons are
    pairwise different. *)
Theorem bookmark_buttons_distinct (es : list Event) :
  NoDup (map fst (bookmarkButtons (state (run es initialWorld)))).
Proof.
  unfold bookmarkButtons. rewrite map_map. simpl.
  apply NoDup_map_injective; [apply bookmarkLabel_inj|].
  apply run_NoDup. constructor.
Qed.

(** ** Navigation touches nothing but the cursor *)

(** X18: Next, Previous and a jump to a bookmark change at most the
    cursor: chapters, font size, bookmarks, highlights, the loading flag
    and the trace stay as they are, on every chapter list and from every
    cursor. *)
Theorem navigation_only_moves_cursor (a : Action) (w : World) :
  is_navigation a = true ->
  exists c v, step a w = moveTo c v w.
Proof.
  intro H. unfold step, dispatch. destruct a; simpl; try discriminate.
  - unfold handleNextVerse.
    destruct (_ =? _);
      [|destruct (_ <? _); [|destruct (_ <? _)]];
      eexists; eexists; try reflexivity; symmetry; apply moveTo_here.
  - unfold handlePreviousVerse.
    destruct (_ =? _);
      [|destruct (_ <? _); [|destruct (_ <? _)]];
      eexists; eexists; try reflexivity; symmetry; apply moveTo_here.
  - destruct (nth_error _ _); eexists; eexists;
      try reflexivity; symmetry; apply moveTo_here.
Qed.

Lemma navigation_only_moves_cursor_witness :
  exists c v,
    step (JumpToBookmark 1) two_bookmarks = moveTo c v two_bookmarks.
Proof.
  apply (navigation_only_moves_cursor (JumpToBookmark 1) two_bookmarks).
  reflexivity.
Defined.
